(** * gotk3 C glue layer: [glib/glib.go.h] and [gtk/gtk.go.h]

    The two headers hold small static C functions that the Go bindings
    call through cgo.  Each one either calls a GLib/GObject/GTK function
    or macro, or reads or writes memory through a pointer argument.

    The functions are embedded as programs of a small monad [shim] whose
    operations are what a C function of these headers can do: call the
    native library, allocate with [g_new0], load and store through a
    pointer, and access a file-scope variable.  An interpreter [run]
    executes a program against a block-structured heap and an arbitrary
    native library, and records every operation in a trace.  The macros
    of GObject that are field reads are executed as such, on the heap,
    and are undefined on a pointer that cannot be read. *)

From Stdlib Require Import Ascii.
From stdpp Require Import gmap strings list fin_maps.

Local Open Scope Z_scope.

(** ** Values *)

(** The types named by [g_new0] in the two headers. *)
Inductive ctype := TGValue | TGType.

(** The one external function whose address is taken ([glib.go.h], line 92). *)
Inductive extern_fn := goMarshal.

(** The [G_VARIANT_TYPE_*] macros of GLib's [gvarianttype.h].  GLib defines
    each as a constant pointer expression; the headers under study only
    name them, so each macro is kept as a symbolic constant. *)
Inductive variant_type_macro :=
| G_VARIANT_TYPE_BOOLEAN | G_VARIANT_TYPE_BYTE
| G_VARIANT_TYPE_INT16 | G_VARIANT_TYPE_UINT16
| G_VARIANT_TYPE_INT32 | G_VARIANT_TYPE_UINT32
| G_VARIANT_TYPE_INT64 | G_VARIANT_TYPE_UINT64
| G_VARIANT_TYPE_HANDLE | G_VARIANT_TYPE_DOUBLE
| G_VARIANT_TYPE_STRING | G_VARIANT_TYPE_OBJECT_PATH
| G_VARIANT_TYPE_SIGNATURE | G_VARIANT_TYPE_VARIANT
| G_VARIANT_TYPE_ANY | G_VARIANT_TYPE_BASIC
| G_VARIANT_TYPE_MAYBE | G_VARIANT_TYPE_ARRAY
| G_VARIANT_TYPE_TUPLE | G_VARIANT_TYPE_UNIT
| G_VARIANT_TYPE_DICT_ENTRY | G_VARIANT_TYPE_DICTIONARY
| G_VARIANT_TYPE_STRING_ARRAY | G_VARIANT_TYPE_OBJECT_PATH_ARRAY
| G_VARIANT_TYPE_BYTESTRING | G_VARIANT_TYPE_BYTESTRING_ARRAY
| G_VARIANT_TYPE_VARDICT.

(** A C value that fits an argument or a return register.  [int], [gint],
    [GType] and the GTK enumerations are integers; no function of the two
    headers does arithmetic on them, so they are unbounded [Z] here.
    A pointer is a block and an element offset in it.  [Vstr s] is the
    address of an immutable NUL-terminated string whose text is [s]. *)
Inductive cval :=
| Vnull
| Vint (z : Z)
| Vptr (b : positive) (ofs : Z)
| Vstr (s : string)
| Vfunptr (f : extern_fn)
| Vsizeof_GClosure
| Vvariant_type (m : variant_type_macro)
| Vvoid.

(** [GValue] and [GError] as GLib declares them ([gvalue.h], [gerror.h]):
    a type tag followed by two data words, and a domain, a code and a
    message.  Neither header under study declares a structure. *)
Record GValue := { g_type : Z; data : Z * Z }.
Record GError := { domain : Z; code : Z; message : cval }.

(** What one array element or pointed-to object holds. *)
Inductive cell :=
| CWord (v : cval)
| CGValue (g : GValue)
| CGError (e : GError).

(** The pointer-sized word at the start of an object, which is what a
    read through a [void *], or of the first member, finds there: a word
    itself, the type tag of a [GValue], and for a [GError] its 32-bit
    domain and code, packed as on the 64-bit little-endian targets of
    the bindings. *)
Definition first_word (c : cell) : cval :=
  match c with
  | CWord v => v
  | CGValue g => Vint (g_type g)
  | CGError e => Vint (domain e mod 2 ^ 32 + 2 ^ 32 * (code e mod 2 ^ 32))
  end.

Definition same_kind (a b : cell) : bool :=
  match a, b with
  | CWord _, CWord _ | CGValue _, CGValue _ | CGError _, CGError _ => true
  | _, _ => false
  end.

(** ** Memory *)

Abbreviation heap := (gmap positive (list cell)).

(** [p[i]]: defined when [p] points into a live block and the element lies
    inside it. *)
Definition deref (h : heap) (p : cval) (i : Z) : option cell :=
  match p with
  | Vptr b ofs =>
      if decide (0 <= ofs + i)
      then l ← h !! b; l !! Z.to_nat (ofs + i)
      else None
  | _ => None
  end.

(** [p[i] = x]: defined when [p[i]] is an object of the assigned type. *)
Definition assign (h : heap) (p : cval) (i : Z) (x : cell) : option heap :=
  match p with
  | Vptr b ofs =>
      match h !! b with
      | Some l =>
          if decide (0 <= ofs + i) then
            match l !! Z.to_nat (ofs + i) with
            | Some old =>
                if same_kind old x
                then Some (<[b := <[Z.to_nat (ofs + i) := x]> l]> h)
                else None
            | None => None
            end
          else None
      | None => None
      end
  | _ => None
  end.

Definition zero_GValue : GValue := {| g_type := 0; data := (0, 0) |}.

Definition zero_of (t : ctype) : cell :=
  match t with
  | TGValue => CGValue zero_GValue
  | TGType => CWord (Vint 0)
  end.

(** Modelled from the spec: [g_new0] is a GLib macro that the headers use
    and do not define.  The model follows GLib's contract for it: it
    returns [n] elements of the given type, all bits zero; it returns
    NULL when [n] is 0; and it ends the process when the request cannot
    be met, which is the case of a negative [int] converted to [gsize].
    [None] stands for the process being ended. *)
Definition g_new0 (t : ctype) (n : Z) (h : heap) : option (cval * heap) :=
  if decide (n < 0) then None
  else if decide (n = 0) then Some (Vnull, h)
  else
    let b := fresh (dom h) in
    Some (Vptr b 0, <[b := replicate (Z.to_nat n) (zero_of t)]> h).

(** ** The native library *)

(** The GLib, GObject and GTK functions and macros that the headers call. *)
Inductive native :=
| g_object_set
| g_value_init
| g_closure_new_simple
| g_closure_set_marshal
| gtk_tree_view_column_new_with_attributes
| gtk_message_dialog_new
| G_TYPE_FROM_INSTANCE
| G_IS_VALUE
| G_VALUE_TYPE
| G_TYPE_FUNDAMENTAL
| G_OBJECT_GET_CLASS
| G_OBJECT_CLASS_NAME.

(** The machine state: the heap, the private state of the native library,
    and the file-scope variables of the translation unit. *)
Record world (L : Type) := World {
  w_heap : heap;
  w_lib : L;
  w_statics : gmap string cval
}.
Arguments World {L} _ _ _.
Arguments w_heap {L} _.
Arguments w_lib {L} _.
Arguments w_statics {L} _.

(** What a native call answers: a result, and the heap and library state
    it leaves.  It has no access to the unit's file-scope variables. *)
Record reply (L : Type) := Reply {
  r_val : cval;
  r_heap : heap;
  r_lib : L
}.
Arguments Reply {L} _ _ _.
Arguments r_val {L} _.
Arguments r_heap {L} _.
Arguments r_lib {L} _.

Definition library (L : Type) : Type :=
  native → list cval → heap → L → reply L.

(** The first word of the object that [p] points to. *)
Definition read_first (h : heap) (p : cval) : option cval :=
  match deref h p 0 with
  | Some c => Some (first_word c)
  | None => None
  end.

(** What a native operation does.  Four of the macros are field reads
    that GObject's headers expand inside the calling function:
    [G_TYPE_FROM_INSTANCE (instance)] is [instance->g_class->g_type],
    [G_VALUE_TYPE (val)] is [val->g_type], [G_OBJECT_GET_CLASS (object)]
    is [object->g_class], and [G_OBJECT_CLASS_NAME (class)] is
    [g_type_name (class->g_type)].  Each of these fields is the first
    word of its object.  A read that is not defined leaves no answer;
    [g_type_name] and every other entry are answered by the library. *)
Definition native_step {L} (lib : library L) (f : native)
    (args : list cval) (h : heap) (l : L) : option (reply L) :=
  match f with
  | G_TYPE_FROM_INSTANCE =>
      match args with
      | [instance] =>
          match read_first h instance with
          | Some g_class =>
              match read_first h g_class with
              | Some t => Some (Reply t h l)
              | None => None
              end
          | None => None
          end
      | _ => None
      end
  | G_VALUE_TYPE | G_OBJECT_GET_CLASS =>
      match args with
      | [p] =>
          match read_first h p with
          | Some field => Some (Reply field h l)
          | None => None
          end
      | _ => None
      end
  | G_OBJECT_CLASS_NAME =>
      match args with
      | [klass] =>
          match read_first h klass with
          | Some t => Some (lib G_OBJECT_CLASS_NAME [t] h l)
          | None => None
          end
      | _ => None
      end
  | _ => Some (lib f args h l)
  end.

(** ** The monad of shim programs *)

Inductive shim (A : Type) : Type :=
| Ret (a : A)
| Undefined
| Call (f : native) (args : list cval) (k : cval → shim A)
| New0 (t : ctype) (n : Z) (k : cval → shim A)
| LoadAt (p : cval) (i : Z) (k : cell → shim A)
| StoreAt (p : cval) (i : Z) (x : cell) (k : shim A)
| GetStatic (x : string) (k : cval → shim A)
| SetStatic (x : string) (v : cval) (k : shim A).
Arguments Ret {A} _.
Arguments Undefined {A}.
Arguments Call {A} _ _ _.
Arguments New0 {A} _ _ _.
Arguments LoadAt {A} _ _ _.
Arguments StoreAt {A} _ _ _ _.
Arguments GetStatic {A} _ _.
Arguments SetStatic {A} _ _ _.

Fixpoint shim_bind {A B} (f : A → shim B) (m : shim A) : shim B :=
  match m with
  | Ret a => f a
  | Undefined => Undefined
  | Call g args k => Call g args (λ r, shim_bind f (k r))
  | New0 t n k => New0 t n (λ r, shim_bind f (k r))
  | LoadAt p i k => LoadAt p i (λ c, shim_bind f (k c))
  | StoreAt p i x k => StoreAt p i x (shim_bind f k)
  | GetStatic x k => GetStatic x (λ r, shim_bind f (k r))
  | SetStatic x v k => SetStatic x v (shim_bind f k)
  end.

#[global] Instance shim_mret : MRet shim := @Ret.
#[global] Instance shim_mbind : MBind shim := @shim_bind.

Definition call (f : native) (args : list cval) : shim cval := Call f args Ret.
Definition new0 (t : ctype) (n : Z) : shim cval := New0 t n Ret.
Definition store (p : cval) (i : Z) (x : cell) : shim unit := StoreAt p i x (Ret tt).

(** A read through a [void *] that is cast to a pointer to a word: it
    finds the first word of whatever object is there. *)
Definition load_word (p : cval) (i : Z) : shim cval :=
  LoadAt p i (λ c, Ret (first_word c)).

(** Typed loads, through a parameter of the pointer type: reading an
    object of another type is undefined. *)
Definition load_GValue (p : cval) (i : Z) : shim GValue :=
  LoadAt p i (λ c, match c with CGValue g => Ret g | _ => Undefined end).
Definition load_GError (p : cval) (i : Z) : shim GError :=
  LoadAt p i (λ c, match c with CGError e => Ret e | _ => Undefined end).

(** ** Execution *)

Inductive event :=
| ECall (f : native) (args : list cval) (r : cval)
| EFault (f : native) (args : list cval)
| ENew0 (t : ctype) (n : Z) (r : option cval)
| ELoad (p : cval) (i : Z)
| EStore (p : cval) (i : Z) (x : cell)
| EGetStatic (x : string)
| ESetStatic (x : string) (v : cval).

Inductive outcome (L A : Type) :=
| Done (a : A) (w : world L)
| UB
| Aborted.
Arguments Done {L A} _ _.
Arguments UB {L A}.
Arguments Aborted {L A}.

Definition after {L A} (e : event) (r : list event * outcome L A)
  : list event * outcome L A := (e :: r.1, r.2).
Arguments after {L A} e r /.

Fixpoint run {L A} (lib : library L) (p : shim A) (w : world L)
  : list event * outcome L A :=
  match p with
  | Ret a => ([], Done a w)
  | Undefined => ([], UB)
  | Call f args k =>
      match native_step lib f args (w_heap w) (w_lib w) with
      | Some r =>
          after (ECall f args (r_val r))
            (run lib (k (r_val r)) (World (r_heap r) (r_lib r) (w_statics w)))
      | None => ([EFault f args], UB)
      end
  | New0 t n k =>
      match g_new0 t n (w_heap w) with
      | Some (p, h) =>
          after (ENew0 t n (Some p))
            (run lib (k p) (World h (w_lib w) (w_statics w)))
      | None => ([ENew0 t n None], Aborted)
      end
  | LoadAt p i k =>
      match deref (w_heap w) p i with
      | Some c => after (ELoad p i) (run lib (k c) w)
      | None => ([ELoad p i], UB)
      end
  | StoreAt p i x k =>
      match assign (w_heap w) p i x with
      | Some h =>
          after (EStore p i x)
            (run lib k (World h (w_lib w) (w_statics w)))
      | None => ([EStore p i x], UB)
      end
  | GetStatic x k =>
      after (EGetStatic x)
        (run lib (k (default Vnull (w_statics w !! x))) w)
  | SetStatic x v k =>
      after (ESetStatic x v)
        (run lib k (World (w_heap w) (w_lib w) (<[x := v]> (w_statics w))))
  end.

(** ** [glib/glib.go.h] *)

Definition _g_type_from_instance (instance : cval) : shim cval :=
  call G_TYPE_FROM_INSTANCE [instance].

(** Wrapper to avoid variable arg list: the third argument of
    [g_object_set] is the pointer-sized word read through [val]. *)
Definition _g_object_set_one (object property_name val : cval) : shim unit :=
  v ← load_word val 0;
  _ ← call g_object_set [object; property_name; v; Vnull];
  mret tt.

Definition alloc_gvalue_list (n : Z) : shim cval :=
  valv ← new0 TGValue n;
  mret valv.

Definition val_list_insert (valv : cval) (i : Z) (val : cval) : shim unit :=
  g ← load_GValue val 0;
  store valv i (CGValue g).

Definition _g_value_alloc : shim cval :=
  new0 TGValue 1.

Definition _g_value_init (g_type : Z) : shim cval :=
  value ← new0 TGValue 1;
  call g_value_init [value; Vint g_type].

Definition _g_is_value (val : cval) : shim cval :=
  call G_IS_VALUE [val].

Definition _g_value_type (val : cval) : shim cval :=
  call G_VALUE_TYPE [val].

Definition _g_value_fundamental (type : Z) : shim cval :=
  call G_TYPE_FUNDAMENTAL [Vint type].

Definition _g_closure_new : shim cval :=
  closure ← call g_closure_new_simple [Vsizeof_GClosure; Vnull];
  _ ← call g_closure_set_marshal [closure; Vfunptr goMarshal];
  mret closure.

Definition _g_variant_type_boolean : shim cval :=
  mret (Vvariant_type G_VARIANT_TYPE_BOOLEAN).
Definition _g_variant_type_byte : shim cval :=
  mret (Vvariant_type G_VARIANT_TYPE_BYTE).
Definition _g_variant_type_int16 : shim cval :=
  mret (Vvariant_type G_VARIANT_TYPE_INT16).
Definition _g_variant_type_uint16 : shim cval :=
  mret (Vvariant_type G_VARIANT_TYPE_UINT16).
Definition _g_variant_type_int32 : shim cval :=
  mret (Vvariant_type G_VARIANT_TYPE_INT32).
Definition _g_variant_type_uint32 : shim cval :=
  mret (Vvariant_type G_VARIANT_TYPE_UINT32).
Definition _g_variant_type_int64 : shim cval :=
  mret (Vvariant_type G_VARIANT_TYPE_INT64).
Definition _g_variant_type_uint64 : shim cval :=
  mret (Vvariant_type G_VARIANT_TYPE_UINT64).
Definition _g_variant_type_handle : shim cval :=
  mret (Vvariant_type G_VARIANT_TYPE_HANDLE).
Definition _g_variant_type_double : shim cval :=
  mret (Vvariant_type G_VARIANT_TYPE_DOUBLE).
Definition _g_variant_type_string : shim cval :=
  mret (Vvariant_type G_VARIANT_TYPE_STRING).
Definition _g_variant_type_object_path : shim cval :=
  mret (Vvariant_type G_VARIANT_TYPE_OBJECT_PATH).
Definition _g_variant_type_signature : shim cval :=
  mret (Vvariant_type G_VARIANT_TYPE_SIGNATURE).
Definition _g_variant_type_variant : shim cval :=
  mret (Vvariant_type G_VARIANT_TYPE_VARIANT).
Definition _g_variant_type_any : shim cval :=
  mret (Vvariant_type G_VARIANT_TYPE_ANY).
Definition _g_variant_type_basic : shim cval :=
  mret (Vvariant_type G_VARIANT_TYPE_BASIC).
Definition _g_variant_type_maybe : shim cval :=
  mret (Vvariant_type G_VARIANT_TYPE_MAYBE).
Definition _g_variant_type_array : shim cval :=
  mret (Vvariant_type G_VARIANT_TYPE_ARRAY).
Definition _g_variant_type_tuple : shim cval :=
  mret (Vvariant_type G_VARIANT_TYPE_TUPLE).
Definition _g_variant_type_unit : shim cval :=
  mret (Vvariant_type G_VARIANT_TYPE_UNIT).
Definition _g_variant_type_dict_entry : shim cval :=
  mret (Vvariant_type G_VARIANT_TYPE_DICT_ENTRY).
Definition _g_variant_type_dictionary : shim cval :=
  mret (Vvariant_type G_VARIANT_TYPE_DICTIONARY).
Definition _g_variant_type_string_array : shim cval :=
  mret (Vvariant_type G_VARIANT_TYPE_STRING_ARRAY).
Definition _g_variant_type_object_path_array : shim cval :=
  mret (Vvariant_type G_VARIANT_TYPE_OBJECT_PATH_ARRAY).
Definition _g_variant_type_bytestring : shim cval :=
  mret (Vvariant_type G_VARIANT_TYPE_BYTESTRING).
Definition _g_variant_type_bytestring_array : shim cval :=
  mret (Vvariant_type G_VARIANT_TYPE_BYTESTRING_ARRAY).
Definition _g_variant_type_vardict : shim cval :=
  mret (Vvariant_type G_VARIANT_TYPE_VARDICT).

(** ** [gtk/gtk.go.h] *)

Definition alloc_types (n : Z) : shim cval :=
  new0 TGType n.

Definition set_type (types : cval) (n : Z) (t : Z) : shim unit :=
  store types n (CWord (Vint t)).

Definition _gtk_tree_view_column_new_with_attributes_one
    (title renderer attribute : cval) (column : Z) : shim cval :=
  tvc ← call gtk_tree_view_column_new_with_attributes
          [title; renderer; attribute; Vint column; Vnull];
  mret tvc.

Definition _gtk_message_dialog_new
    (parent : cval) (flags type buttons : Z) (msg : cval) : shim cval :=
  w ← call gtk_message_dialog_new
        [parent; Vint flags; Vint type; Vint buttons; Vstr "%s"; msg];
  mret w.

Definition error_get_message (error : cval) : shim cval :=
  e ← load_GError error 0;
  mret (message e).

Definition object_get_class_name (object : cval) : shim cval :=
  klass ← call G_OBJECT_GET_CLASS [object];
  call G_OBJECT_CLASS_NAME [klass].

(** ** The functions of the repository as one family *)

(** The twenty-seven variant-type accessors of [glib.go.h], lines 106-266. *)
Inductive accessor :=
| acc_boolean | acc_byte | acc_int16 | acc_uint16 | acc_int32 | acc_uint32
| acc_int64 | acc_uint64 | acc_handle | acc_double | acc_string
| acc_object_path | acc_signature | acc_variant | acc_any | acc_basic
| acc_maybe | acc_array | acc_tuple | acc_unit | acc_dict_entry
| acc_dictionary | acc_string_array | acc_object_path_array
| acc_bytestring | acc_bytestring_array | acc_vardict.

Definition accessor_body (a : accessor) : shim cval :=
  match a with
  | acc_boolean => _g_variant_type_boolean
  | acc_byte => _g_variant_type_byte
  | acc_int16 => _g_variant_type_int16
  | acc_uint16 => _g_variant_type_uint16
  | acc_int32 => _g_variant_type_int32
  | acc_uint32 => _g_variant_type_uint32
  | acc_int64 => _g_variant_type_int64
  | acc_uint64 => _g_variant_type_uint64
  | acc_handle => _g_variant_type_handle
  | acc_double => _g_variant_type_double
  | acc_string => _g_variant_type_string
  | acc_object_path => _g_variant_type_object_path
  | acc_signature => _g_variant_type_signature
  | acc_variant => _g_variant_type_variant
  | acc_any => _g_variant_type_any
  | acc_basic => _g_variant_type_basic
  | acc_maybe => _g_variant_type_maybe
  | acc_array => _g_variant_type_array
  | acc_tuple => _g_variant_type_tuple
  | acc_unit => _g_variant_type_unit
  | acc_dict_entry => _g_variant_type_dict_entry
  | acc_dictionary => _g_variant_type_dictionary
  | acc_string_array => _g_variant_type_string_array
  | acc_object_path_array => _g_variant_type_object_path_array
  | acc_bytestring => _g_variant_type_bytestring
  | acc_bytestring_array => _g_variant_type_bytestring_array
  | acc_vardict => _g_variant_type_vardict
  end.

(** A call of one function of the repository with its arguments. *)
Inductive invocation :=
| I_g_type_from_instance (instance : cval)
| I_g_object_set_one (object property_name val : cval)
| I_alloc_gvalue_list (n : Z)
| I_val_list_insert (valv : cval) (i : Z) (val : cval)
| I_g_value_alloc
| I_g_value_init (g_type : Z)
| I_g_is_value (val : cval)
| I_g_value_type (val : cval)
| I_g_value_fundamental (type : Z)
| I_g_closure_new
| I_g_variant_type (a : accessor)
| I_alloc_types (n : Z)
| I_set_type (types : cval) (n : Z) (t : Z)
| I_gtk_tree_view_column_new_with_attributes_one
    (title renderer attribute : cval) (column : Z)
| I_gtk_message_dialog_new
    (parent : cval) (flags type buttons : Z) (msg : cval)
| I_error_get_message (error : cval)
| I_object_get_class_name (object : cval).

(** A [void] function returns [Vvoid]. *)
Definition void (m : shim unit) : shim cval := _ ← m; mret Vvoid.

Definition body (c : invocation) : shim cval :=
  match c with
  | I_g_type_from_instance instance => _g_type_from_instance instance
  | I_g_object_set_one object property_name val =>
      void (_g_object_set_one object property_name val)
  | I_alloc_gvalue_list n => alloc_gvalue_list n
  | I_val_list_insert valv i val => void (val_list_insert valv i val)
  | I_g_value_alloc => _g_value_alloc
  | I_g_value_init g_type => _g_value_init g_type
  | I_g_is_value val => _g_is_value val
  | I_g_value_type val => _g_value_type val
  | I_g_value_fundamental type => _g_value_fundamental type
  | I_g_closure_new => _g_closure_new
  | I_g_variant_type a => accessor_body a
  | I_alloc_types n => alloc_types n
  | I_set_type types n t => void (set_type types n t)
  | I_gtk_tree_view_column_new_with_attributes_one title renderer attribute column =>
      _gtk_tree_view_column_new_with_attributes_one title renderer attribute column
  | I_gtk_message_dialog_new parent flags type buttons msg =>
      _gtk_message_dialog_new parent flags type buttons msg
  | I_error_get_message error => error_get_message error
  | I_object_get_class_name object => object_get_class_name object
  end.

(** The arguments of a call, in the order of the C parameter list. *)
Definition own_args (c : invocation) : list cval :=
  match c with
  | I_g_type_from_instance instance => [instance]
  | I_g_object_set_one object property_name val => [object; property_name; val]
  | I_alloc_gvalue_list n => [Vint n]
  | I_val_list_insert valv i val => [valv; Vint i; val]
  | I_g_value_alloc => []
  | I_g_value_init g_type => [Vint g_type]
  | I_g_is_value val => [val]
  | I_g_value_type val => [val]
  | I_g_value_fundamental type => [Vint type]
  | I_g_closure_new => []
  | I_g_variant_type _ => []
  | I_alloc_types n => [Vint n]
  | I_set_type types n t => [types; Vint n; Vint t]
  | I_gtk_tree_view_column_new_with_attributes_one title renderer attribute column =>
      [title; renderer; attribute; Vint column]
  | I_gtk_message_dialog_new parent flags type buttons msg =>
      [parent; Vint flags; Vint type; Vint buttons; msg]
  | I_error_get_message error => [error]
  | I_object_get_class_name object => [object]
  end.

Definition returns_void (c : invocation) : bool :=
  match c with
  | I_g_object_set_one _ _ _ | I_val_list_insert _ _ _ | I_set_type _ _ _ => true
  | _ => false
  end.

(** ** Reading a trace *)

(** The operations of the native library in a trace: calls of functions
    and macros, and [g_new0]. *)
Definition is_native (e : event) : bool :=
  match e with
  | ECall _ _ _ | EFault _ _ | ENew0 _ _ _ => true
  | _ => false
  end.

Definition native_ops (t : list event) : list event :=
  List.filter is_native t.

(** The argument values handed to the library by an operation, and the
    value it answered. *)
Definition passed (e : event) : list cval :=
  match e with
  | ECall _ args _ | EFault _ args => args
  | ENew0 _ n _ => [Vint n]
  | _ => []
  end.

Definition answered (e : event) : list cval :=
  match e with
  | ECall _ _ r => [r]
  | ENew0 _ _ (Some r) => [r]
  | _ => []
  end.

Definition all_passed (t : list event) : list cval := concat (passed <$> t).
Definition all_answered (t : list event) : list cval := concat (answered <$> t).

Definition is_alloc (e : event) : bool :=
  match e with ENew0 _ _ _ => true | _ => false end.
Definition is_store (e : event) : bool :=
  match e with EStore _ _ _ => true | _ => false end.
Definition is_static (e : event) : bool :=
  match e with EGetStatic _ | ESetStatic _ _ => true | _ => false end.

(** ** A small native library to run examples against

    It keeps no state and leaves the heap alone.  [G_IS_VALUE] and
    [G_VALUE_TYPE] read the type tag of the [GValue] they are given, as
    GObject's macros do, [g_value_init] answers its first argument, and
    every other entry answers a fixed handle.  (The field-read macros
    are answered by [native_step] before the library is asked.) *)
Definition sample_library : library unit := λ f args h l,
  match f, args with
  | G_IS_VALUE, [p] =>
      match deref h p 0 with
      | Some (CGValue g) => Reply (Vint (if decide (g_type g = 0) then 0 else 1)) h l
      | _ => Reply (Vint 0) h l
      end
  | G_VALUE_TYPE, [p] =>
      match deref h p 0 with
      | Some (CGValue g) => Reply (Vint (g_type g)) h l
      | _ => Reply (Vint 0) h l
      end
  | g_value_init, p :: _ => Reply p h l
  | g_object_set, _ | g_closure_set_marshal, _ => Reply Vvoid h l
  | _, _ => Reply (Vstr "handle") h l
  end.

Definition world_of (h : heap) : world unit := World h tt ∅.

(** ** Notions used in the statements *)

(** *** Forwarding of arguments and results (C1) *)

(** The claim as the specification words it: the native calls of a
    completed run are one call, on exactly the shim's own argument list,
    whose result the shim returns. *)
Definition forwards_own_arguments {L} (lib : library L)
    (c : invocation) (w : world L) : Prop :=
  ∀ t r w', run lib (body c) w = (t, Done r w') →
    ∃ f ret, native_ops t = [ECall f (own_args c) ret]
             ∧ (returns_void c = false → r = ret).

(** The three functions that call nothing and only access memory. *)
Definition memory_only (c : invocation) : bool :=
  match c with
  | I_val_list_insert _ _ _ | I_set_type _ _ _ | I_error_get_message _ => true
  | _ => false
  end.

(** The arguments that a shim hands on as they are: all of them, but for
    the [val] of [_g_object_set_one], which is read through, and for the
    functions of [memory_only]. *)
Definition forwarded_args (c : invocation) : list cval :=
  match c with
  | I_g_object_set_one object property_name _ => [object; property_name]
  | _ => if memory_only c then [] else own_args c
  end.

(** The value-returning shims whose result is the answer of their last
    native operation. *)
Definition returns_last_answer (c : invocation) : bool :=
  match c with
  | I_g_type_from_instance _ | I_alloc_gvalue_list _ | I_g_value_alloc
  | I_g_value_init _ | I_g_is_value _ | I_g_value_type _
  | I_g_value_fundamental _ | I_alloc_types _
  | I_gtk_tree_view_column_new_with_attributes_one _ _ _ _
  | I_gtk_message_dialog_new _ _ _ _ _ | I_object_get_class_name _ => true
  | _ => false
  end.

Definition one_word_heap : heap := {[ 1%positive := [CWord (Vint 7)] ]}.

(** *** One forward per function (C2) *)

(** The claim as the specification words it: a run is one native
    operation and nothing else. *)
Definition single_forward {L} (lib : library L)
    (c : invocation) (w : world L) : Prop :=
  ∃ e, (run lib (body c) w).1 = [e] ∧ is_native e = true.

(** The name of a native operation in a trace. *)
Inductive op_name :=
| Lib (f : native)
| GNew0.

Definition name_of (e : event) : option op_name :=
  match e with
  | ECall f _ _ | EFault f _ => Some (Lib f)
  | ENew0 _ _ _ => Some GNew0
  | _ => None
  end.

(** The native operations of each function, in the order of the source. *)
Definition native_sequence (c : invocation) : list op_name :=
  match c with
  | I_g_type_from_instance _ => [Lib G_TYPE_FROM_INSTANCE]
  | I_g_object_set_one _ _ _ => [Lib g_object_set]
  | I_alloc_gvalue_list _ => [GNew0]
  | I_val_list_insert _ _ _ => []
  | I_g_value_alloc => [GNew0]
  | I_g_value_init _ => [GNew0; Lib g_value_init]
  | I_g_is_value _ => [Lib G_IS_VALUE]
  | I_g_value_type _ => [Lib G_VALUE_TYPE]
  | I_g_value_fundamental _ => [Lib G_TYPE_FUNDAMENTAL]
  | I_g_closure_new => [Lib g_closure_new_simple; Lib g_closure_set_marshal]
  | I_g_variant_type _ => []
  | I_alloc_types _ => [GNew0]
  | I_set_type _ _ _ => []
  | I_gtk_tree_view_column_new_with_attributes_one _ _ _ _ =>
      [Lib gtk_tree_view_column_new_with_attributes]
  | I_gtk_message_dialog_new _ _ _ _ _ => [Lib gtk_message_dialog_new]
  | I_error_get_message _ => []
  | I_object_get_class_name _ =>
      [Lib G_OBJECT_GET_CLASS; Lib G_OBJECT_CLASS_NAME]
  end.

(** An object whose class has the type 80. *)
Definition one_object : heap :=
  {[ 1%positive := [CWord (Vptr 2 0)]; 2%positive := [CWord (Vint 80)] ]}.

(** How many native operations each function performs. *)
Definition native_op_count (c : invocation) : nat :=
  match c with
  | I_val_list_insert _ _ _ | I_set_type _ _ _ | I_error_get_message _
  | I_g_variant_type _ => 0
  | I_g_value_init _ | I_g_closure_new | I_object_get_class_name _ => 2
  | _ => 1
  end.

(** *** Variant-type accessors (C3) *)

(** The macro that the specification pairs with each accessor: the one
    of the same name. *)
Definition corresponding_macro (a : accessor) : variant_type_macro :=
  match a with
  | acc_boolean => G_VARIANT_TYPE_BOOLEAN
  | acc_byte => G_VARIANT_TYPE_BYTE
  | acc_int16 => G_VARIANT_TYPE_INT16
  | acc_uint16 => G_VARIANT_TYPE_UINT16
  | acc_int32 => G_VARIANT_TYPE_INT32
  | acc_uint32 => G_VARIANT_TYPE_UINT32
  | acc_int64 => G_VARIANT_TYPE_INT64
  | acc_uint64 => G_VARIANT_TYPE_UINT64
  | acc_handle => G_VARIANT_TYPE_HANDLE
  | acc_double => G_VARIANT_TYPE_DOUBLE
  | acc_string => G_VARIANT_TYPE_STRING
  | acc_object_path => G_VARIANT_TYPE_OBJECT_PATH
  | acc_signature => G_VARIANT_TYPE_SIGNATURE
  | acc_variant => G_VARIANT_TYPE_VARIANT
  | acc_any => G_VARIANT_TYPE_ANY
  | acc_basic => G_VARIANT_TYPE_BASIC
  | acc_maybe => G_VARIANT_TYPE_MAYBE
  | acc_array => G_VARIANT_TYPE_ARRAY
  | acc_tuple => G_VARIANT_TYPE_TUPLE
  | acc_unit => G_VARIANT_TYPE_UNIT
  | acc_dict_entry => G_VARIANT_TYPE_DICT_ENTRY
  | acc_dictionary => G_VARIANT_TYPE_DICTIONARY
  | acc_string_array => G_VARIANT_TYPE_STRING_ARRAY
  | acc_object_path_array => G_VARIANT_TYPE_OBJECT_PATH_ARRAY
  | acc_bytestring => G_VARIANT_TYPE_BYTESTRING
  | acc_bytestring_array => G_VARIANT_TYPE_BYTESTRING_ARRAY
  | acc_vardict => G_VARIANT_TYPE_VARDICT
  end.

(** Two calls of one accessor in a row, the second from the state the
    first one leaves. *)
Definition call_twice (a : accessor) : shim (cval * cval) :=
  x ← accessor_body a;
  y ← accessor_body a;
  mret (x, y).

(** *** Addresses of elements *)

(** The element that [p[i]] designates. *)
Definition address (p : cval) (i : Z) : option (positive * Z) :=
  match p with
  | Vptr b ofs => Some (b, ofs + i)
  | _ => None
  end.

(** *** No state of its own (C4) *)

(** Programs that never touch a file-scope variable. *)
Inductive static_free {A} : shim A → Prop :=
| sf_ret a : static_free (Ret a)
| sf_undefined : static_free Undefined
| sf_call f args k :
    (∀ r, static_free (k r)) → static_free (Call f args k)
| sf_new0 t n k :
    (∀ r, static_free (k r)) → static_free (New0 t n k)
| sf_load p i k :
    (∀ c, static_free (k c)) → static_free (LoadAt p i k)
| sf_store p i x k :
    static_free k → static_free (StoreAt p i x k).

(** The outcome with the file-scope variables of its final state replaced. *)
Definition with_statics {L A} (s : gmap string cval) (o : outcome L A)
  : outcome L A :=
  match o with
  | Done a w => Done a (World (w_heap w) (w_lib w) s)
  | UB => UB
  | Aborted => Aborted
  end.

Definition statics_sample : gmap string cval := {[ "counter"%string := Vint 1 ]}.

(** *** No validation (C5) *)

(** An operation as the program requests it, before any answer. *)
Inductive operation :=
| OCall (f : native) (args : list cval)
| ONew0 (t : ctype) (n : Z)
| OLoad (p : cval) (i : Z)
| OStore (p : cval) (i : Z) (x : cell)
| OGetStatic (x : string)
| OSetStatic (x : string) (v : cval).

Definition operation_of (e : event) : operation :=
  match e with
  | ECall f args _ | EFault f args => OCall f args
  | ENew0 t n _ => ONew0 t n
  | ELoad p i => OLoad p i
  | EStore p i x => OStore p i x
  | EGetStatic x => OGetStatic x
  | ESetStatic x v => OSetStatic x v
  end.

(** The first thing each function does with its arguments. *)
Definition first_operation (c : invocation) : option operation :=
  match c with
  | I_g_type_from_instance instance =>
      Some (OCall G_TYPE_FROM_INSTANCE [instance])
  | I_g_object_set_one _ _ val => Some (OLoad val 0)
  | I_alloc_gvalue_list n => Some (ONew0 TGValue n)
  | I_val_list_insert _ _ val => Some (OLoad val 0)
  | I_g_value_alloc => Some (ONew0 TGValue 1)
  | I_g_value_init _ => Some (ONew0 TGValue 1)
  | I_g_is_value val => Some (OCall G_IS_VALUE [val])
  | I_g_value_type val => Some (OCall G_VALUE_TYPE [val])
  | I_g_value_fundamental type => Some (OCall G_TYPE_FUNDAMENTAL [Vint type])
  | I_g_closure_new =>
      Some (OCall g_closure_new_simple [Vsizeof_GClosure; Vnull])
  | I_g_variant_type _ => None
  | I_alloc_types n => Some (ONew0 TGType n)
  | I_set_type types n t => Some (OStore types n (CWord (Vint t)))
  | I_gtk_tree_view_column_new_with_attributes_one title renderer attribute column =>
      Some (OCall gtk_tree_view_column_new_with_attributes
              [title; renderer; attribute; Vint column; Vnull])
  | I_gtk_message_dialog_new parent flags type buttons msg =>
      Some (OCall gtk_message_dialog_new
              [parent; Vint flags; Vint type; Vint buttons; Vstr "%s"; msg])
  | I_error_get_message error => Some (OLoad error 0)
  | I_object_get_class_name object => Some (OCall G_OBJECT_GET_CLASS [object])
  end.

Definition two_arrays : heap :=
  {[ 1%positive := [CGValue zero_GValue; CGValue zero_GValue];
     2%positive := [CGValue {| g_type := 24; data := (5, 0) |}] ]}.

(** A straight line of operations.  An operand is a value that the
    function was given or a constant ([Arg]), or what the operation
    number [k] of the line produced ([Res]); there is no test and no
    jump, so that a line performs its operations one after the other,
    whatever its operands and the answers are, up to the first one that
    is undefined. *)
Inductive operand :=
| Arg (v : cval)
| Res (k : nat).

Inductive cell_operand :=
| Lit (x : cell)
| Got (k : nat).

Inductive instr :=
| ICall (f : native) (args : list operand)
| INew0 (t : ctype) (n : Z)
| IReadWord (p : operand)
| IReadGValue (p : operand)
| IReadMessage (p : operand)
| IWrite (p : operand) (i : Z) (x : cell_operand).

Inductive returns :=
| RVoid
| RVal (o : operand).

Definition value_of (e : list cell) (o : operand) : cval :=
  match o with
  | Arg v => v
  | Res k => match e !! k with Some x => first_word x | None => Vnull end
  end.

Definition cell_of (e : list cell) (x : cell_operand) : cell :=
  match x with
  | Lit c => c
  | Got k => default (CWord Vnull) (e !! k)
  end.

(** The program of a line; [e] holds what the operations so far have
    produced. *)
Fixpoint straight_line (s : list instr) (r : returns) (e : list cell)
  : shim cval :=
  match s with
  | [] =>
      Ret (match r with RVoid => Vvoid | RVal o => value_of e o end)
  | ICall f args :: s' =>
      Call f (value_of e <$> args)
        (λ v, straight_line s' r (e ++ [CWord v]))
  | INew0 t n :: s' =>
      New0 t n (λ v, straight_line s' r (e ++ [CWord v]))
  | IReadWord p :: s' =>
      LoadAt (value_of e p) 0
        (λ c, straight_line s' r (e ++ [CWord (first_word c)]))
  | IReadGValue p :: s' =>
      LoadAt (value_of e p) 0
        (λ c, match c with
              | CGValue _ => straight_line s' r (e ++ [c])
              | _ => Undefined
              end)
  | IReadMessage p :: s' =>
      LoadAt (value_of e p) 0
        (λ c, match c with
              | CGError x => straight_line s' r (e ++ [CWord (message x)])
              | _ => Undefined
              end)
  | IWrite p i x :: s' =>
      StoreAt (value_of e p) i (cell_of e x) (straight_line s' r (e ++ [CWord Vvoid]))
  end.

(** Each function as a straight line. *)
Definition script (c : invocation) : list instr * returns :=
  match c with
  | I_g_type_from_instance instance =>
      ([ICall G_TYPE_FROM_INSTANCE [Arg instance]], RVal (Res 0))
  | I_g_object_set_one object property_name val =>
      ([IReadWord (Arg val);
        ICall g_object_set [Arg object; Arg property_name; Res 0; Arg Vnull]],
       RVoid)
  | I_alloc_gvalue_list n => ([INew0 TGValue n], RVal (Res 0))
  | I_val_list_insert valv i val =>
      ([IReadGValue (Arg val); IWrite (Arg valv) i (Got 0)], RVoid)
  | I_g_value_alloc => ([INew0 TGValue 1], RVal (Res 0))
  | I_g_value_init g_type =>
      ([INew0 TGValue 1; ICall g_value_init [Res 0; Arg (Vint g_type)]],
       RVal (Res 1))
  | I_g_is_value val => ([ICall G_IS_VALUE [Arg val]], RVal (Res 0))
  | I_g_value_type val => ([ICall G_VALUE_TYPE [Arg val]], RVal (Res 0))
  | I_g_value_fundamental type =>
      ([ICall G_TYPE_FUNDAMENTAL [Arg (Vint type)]], RVal (Res 0))
  | I_g_closure_new =>
      ([ICall g_closure_new_simple [Arg Vsizeof_GClosure; Arg Vnull];
        ICall g_closure_set_marshal [Res 0; Arg (Vfunptr goMarshal)]],
       RVal (Res 0))
  | I_g_variant_type a =>
      ([], RVal (Arg (Vvariant_type (corresponding_macro a))))
  | I_alloc_types n => ([INew0 TGType n], RVal (Res 0))
  | I_set_type types n t =>
      ([IWrite (Arg types) n (Lit (CWord (Vint t)))], RVoid)
  | I_gtk_tree_view_column_new_with_attributes_one title renderer attribute column =>
      ([ICall gtk_tree_view_column_new_with_attributes
          [Arg title; Arg renderer; Arg attribute; Arg (Vint column);
           Arg Vnull]],
       RVal (Res 0))
  | I_gtk_message_dialog_new parent flags type buttons msg =>
      ([ICall gtk_message_dialog_new
          [Arg parent; Arg (Vint flags); Arg (Vint type); Arg (Vint buttons);
           Arg (Vstr "%s"); Arg msg]],
       RVal (Res 0))
  | I_error_get_message error =>
      ([IReadMessage (Arg error)], RVal (Res 0))
  | I_object_get_class_name object =>
      ([ICall G_OBJECT_GET_CLASS [Arg object];
        ICall G_OBJECT_CLASS_NAME [Res 0]],
       RVal (Res 1))
  end.

(** *** Allocation and copies (C6) *)

(** A store of a whole structure. *)
Definition copies_struct (e : event) : bool :=
  match e with
  | EStore _ _ (CGValue _) | EStore _ _ (CGError _) => true
  | _ => false
  end.

(** The claim as the specification words it: a run allocates nothing and
    copies no structure by value. *)
Definition only_forwards_pointers {L} (lib : library L)
    (c : invocation) (w : world L) : Prop :=
  Forall (λ e, is_alloc e = false) (run lib (body c) w).1
  ∧ Forall (λ e, copies_struct e = false) (run lib (body c) w).1.

(** The functions that allocate with [g_new0], and those that write
    memory themselves. *)
Definition allocates (c : invocation) : bool :=
  match c with
  | I_alloc_gvalue_list _ | I_alloc_types _ | I_g_value_alloc
  | I_g_value_init _ => true
  | _ => false
  end.

Definition writes (c : invocation) : bool :=
  match c with
  | I_val_list_insert _ _ _ | I_set_type _ _ _ => true
  | _ => false
  end.

(** *** The message of a dialog (C7) *)

(** Modelled from the spec: the text that the native
    [gtk_message_dialog_new], which is no part of the two headers, makes
    of its format and of the arguments after it.  It is a printf-style
    expansion; the model covers the conversions [%s] and [%%], and gives
    [None] for a format that asks for anything else or for more
    arguments than there are. *)
Fixpoint printf_expand (fmt : string) (args : list string) : option string :=
  match fmt with
  | EmptyString => Some EmptyString
  | String "%"%char (String "s"%char rest) =>
      match args with
      | a :: args' => String.append a <$> printf_expand rest args'
      | [] => None
      end
  | String "%"%char (String "%"%char rest) =>
      String "%"%char <$> printf_expand rest args
  | String "%"%char _ => None
  | String ch rest => String ch <$> printf_expand rest args
  end.

Definition text_of (v : cval) : option string :=
  match v with
  | Vstr s => Some s
  | _ => None
  end.

(** The message of the dialog that a call of [gtk_message_dialog_new]
    with these arguments creates: the format is the fifth argument. *)
Definition dialog_message (args : list cval) : option string :=
  match args with
  | _ :: _ :: _ :: _ :: fmt :: rest =>
      f ← text_of fmt; a ← mapM text_of rest; printf_expand f a
  | _ => None
  end.

(** *** Zeroed allocations (C9) *)

(** [r] is a new array of [n] zeroed elements of type [t]: a block that
    was not live in [h], and the only difference between [h] and [h']. *)
Definition fresh_zeroed_array (t : ctype) (n : Z) (h : heap) (r : cval)
    (h' : heap) : Prop :=
  ∃ b, r = Vptr b 0 ∧ h !! b = None
       ∧ h' = <[b := replicate (Z.to_nat n) (zero_of t)]> h.

(** The claim as the specification words it: the program completes and
    returns such an array, the rest of the state being as it was. *)
Definition returns_fresh_zeroed_array {L} (lib : library L)
    (p : shim cval) (t : ctype) (n : Z) (w : world L) : Prop :=
  ∃ r h', (run lib p w).2 = Done r (World h' (w_lib w) (w_statics w))
          ∧ fresh_zeroed_array t n (w_heap w) r h'.

(** Modelled from the spec: [G_IS_VALUE] is a macro of GObject, which the
    headers use and do not define.  This is the part of its contract
    that the claim relies on: it answers FALSE for a [GValue] whose type
    tag is 0, the invalid type. *)
Definition G_IS_VALUE_rejects_untyped {L} (lib : library L) : Prop :=
  ∀ p h l g, deref h p 0 = Some (CGValue g) → g_type g = 0 →
             r_val (lib G_IS_VALUE [p] h l) = Vint 0.

(** Allocate a value, then ask whether it is one. *)
Definition alloc_then_check : shim cval :=
  v ← _g_value_alloc;
  _g_is_value v.

(** *** Sequences of calls *)

(** Whether a run came to its end. *)
Definition completes {L A} (o : outcome L A) : Prop :=
  ∃ a w, o = Done a w.

(** Allocate a list of [n] values, then insert the value found at [val]
    at index [i]. *)
Definition alloc_and_insert (n i : Z) (val : cval) : shim cval :=
  valv ← alloc_gvalue_list n;
  _ ← val_list_insert valv i val;
  mret valv.

(** Allocate an array of [n] types, then set the one at index [k]. *)
Definition alloc_and_set (n k t : Z) : shim cval :=
  types ← alloc_types n;
  _ ← set_type types k t;
  mret types.

(** [set_type] for the types of [ts], in order, at the indices [k],
    [k + 1] and so on. *)
Fixpoint set_types_from (types : cval) (k : Z) (ts : list Z) : shim unit :=
  match ts with
  | [] => mret tt
  | t :: ts' => _ ← set_type types k t; set_types_from types (k + 1) ts'
  end.

(** An array that holds the types of [ts]: [alloc_types] for their
    number, then [set_type] for each of them. *)
Definition types_array (ts : list Z) : shim cval :=
  types ← alloc_types (Z.of_nat (length ts));
  _ ← set_types_from types 0 ts;
  mret types.

(** Two stores of a type, one after the other. *)
Definition set_type_twice (types : cval) (n t1 : Z) (m t2 : Z) : shim unit :=
  _ ← set_type types n t1;
  set_type types m t2.

(** Two insertions, one after the other. *)
Definition val_list_insert_twice (valv : cval) (i : Z) (val1 : cval)
    (j : Z) (val2 : cval) : shim unit :=
  _ ← val_list_insert valv i val1;
  val_list_insert valv j val2.


(** A native library that leaves the heap as it finds it. *)
Definition heap_preserving {L} (lib : library L) : Prop :=
  ∀ f args h l, r_heap (lib f args h l) = h.

(** An array of three types, all zero. *)
Definition three_types : heap :=
  {[ 1%positive := [CWord (Vint 0); CWord (Vint 0); CWord (Vint 0)] ]}.

(** [two_arrays] after the value of its second block has been inserted
    at index 1 of its first. *)
Definition inserted_arrays : heap :=
  {[ 1%positive := [CGValue zero_GValue;
                    CGValue {| g_type := 24; data := (5, 0) |}];
     2%positive := [CGValue {| g_type := 24; data := (5, 0) |}] ]}.

(** An insertion followed by an overwrite of the value that was
    inserted from. *)
Definition insert_then_overwrite_source (valv : cval) (i : Z)
    (val other : cval) : shim unit :=
  _ ← val_list_insert valv i val;
  val_list_insert val 0 other.

(** A heap that holds one error. *)
Definition one_error : heap :=
  {[ 1%positive :=
       [CGError {| domain := 3; code := 2; message := Vstr "No such file" |}] ]}.

(** [two_arrays] after that insertion and after the value of its second
    block has then been overwritten with a zero value. *)
Definition source_overwritten : heap :=
  {[ 1%positive := [CGValue zero_GValue;
                    CGValue {| g_type := 24; data := (5, 0) |}];
     2%positive := [CGValue zero_GValue] ]}.

(** * Results *)

(** ** Symbolic execution of the shims *)

Ltac unfold_shims :=
  unfold body, accessor_body, void,
    _g_type_from_instance, _g_object_set_one, alloc_gvalue_list,
    val_list_insert, _g_value_alloc, _g_value_init, _g_is_value,
    _g_value_type, _g_value_fundamental, _g_closure_new,
    _g_variant_type_boolean, _g_variant_type_byte, _g_variant_type_int16,
    _g_variant_type_uint16, _g_variant_type_int32, _g_variant_type_uint32,
    _g_variant_type_int64, _g_variant_type_uint64, _g_variant_type_handle,
    _g_variant_type_double, _g_variant_type_string,
    _g_variant_type_object_path, _g_variant_type_signature,
    _g_variant_type_variant, _g_variant_type_any, _g_variant_type_basic,
    _g_variant_type_maybe, _g_variant_type_array, _g_variant_type_tuple,
    _g_variant_type_unit, _g_variant_type_dict_entry,
    _g_variant_type_dictionary, _g_variant_type_string_array,
    _g_variant_type_object_path_array, _g_variant_type_bytestring,
    _g_variant_type_bytestring_array, _g_variant_type_vardict,
    alloc_types, set_type, _gtk_tree_view_column_new_with_attributes_one,
    _gtk_message_dialog_new, error_get_message, object_get_class_name,
    call, new0, store, load_word, load_GValue, load_GError,
    mbind, shim_mbind, mret, shim_mret in *.

(** Split on the memory operations of a run that stands in hypothesis [H]. *)
Ltac exec_in H :=
  cbn in H;
  repeat (match type of H with
          | context [read_first ?h ?p] =>
              destruct (read_first h p) eqn:?
          | context [g_new0 ?t ?n ?h] =>
              destruct (g_new0 t n h) as [[? ?]|] eqn:?
          | context [deref ?h ?p ?i] =>
              destruct (deref h p i) as [[?|?|?]|] eqn:?
          | context [assign ?h ?p ?i ?x] =>
              destruct (assign h p i x) eqn:?
          end; cbn in H).

(** The same on a run that stands in the goal. *)
Ltac exec :=
  cbn;
  repeat (match goal with
          | |- context [read_first ?h ?p] =>
              destruct (read_first h p) eqn:?
          | |- context [g_new0 ?t ?n ?h] =>
              destruct (g_new0 t n h) as [[? ?]|] eqn:?
          | |- context [deref ?h ?p ?i] =>
              destruct (deref h p i) as [[?|?|?]|] eqn:?
          | |- context [assign ?h ?p ?i ?x] =>
              destruct (assign h p i x) eqn:?
          end; cbn).

Ltac sublist_solve :=
  repeat first [ apply sublist_nil | apply sublist_skip | apply sublist_cons ].

(** ** Forwarding of arguments and results (C1) *)

(** C1, counterexample: [_g_object_set_one] called with [val] pointing to
    a word that holds 7 calls [g_object_set] with 7 and a closing NULL,
    not with [val]. *)
Lemma C1_object_set_one_reads_through_val :
  run sample_library
      (body (I_g_object_set_one (Vptr 2 0) (Vstr "label") (Vptr 1 0)))
      (world_of one_word_heap)
  = ([ELoad (Vptr 1 0) 0;
      ECall g_object_set [Vptr 2 0; Vstr "label"; Vint 7; Vnull] Vvoid],
     Done Vvoid (world_of one_word_heap))
  ∧ ¬ forwards_own_arguments sample_library
        (I_g_object_set_one (Vptr 2 0) (Vstr "label") (Vptr 1 0))
        (world_of one_word_heap).
Proof.
  assert (Hrun : run sample_library
      (body (I_g_object_set_one (Vptr 2 0) (Vstr "label") (Vptr 1 0)))
      (world_of one_word_heap)
    = ([ELoad (Vptr 1 0) 0;
        ECall g_object_set [Vptr 2 0; Vstr "label"; Vint 7; Vnull] Vvoid],
       Done Vvoid (world_of one_word_heap))) by reflexivity.
  split; [exact Hrun|].
  intros Hclaim. destruct (Hclaim _ _ _ Hrun) as (f & ret & Hops & _).
  vm_compute in Hops. discriminate Hops.
Qed.

(** C1, as amended: in every completed run, the arguments of
    [forwarded_args] reach the native library unchanged and in order; a
    value-returning shim that calls the library returns the answer of its
    last native operation, but for [_g_closure_new], which returns the
    answer of its first; a [void] shim returns nothing; the functions of
    [memory_only] call nothing;
    [_g_object_set_one] passes the first word of what is stored at [val],
    followed by NULL;
    and [_gtk_message_dialog_new] passes [msg] unchanged after the format
    ["%s"]. *)
Theorem C1_forwarding L (lib : library L) (c : invocation) (w : world L)
    (t : list event) (r : cval) (w' : world L) :
  run lib (body c) w = (t, Done r w') →
  forwarded_args c `sublist_of` all_passed t
  ∧ (returns_last_answer c = true → last (all_answered t) = Some r)
  ∧ (c = I_g_closure_new → head (all_answered t) = Some r)
  ∧ (returns_void c = true → r = Vvoid)
  ∧ (memory_only c = true → native_ops t = [])
  ∧ (∀ object property_name val,
       c = I_g_object_set_one object property_name val →
       ∃ x ret, deref (w_heap w) val 0 = Some x
         ∧ t = [ELoad val 0;
                ECall g_object_set
                  [object; property_name; first_word x; Vnull] ret])
  ∧ (∀ parent flags type buttons msg,
       c = I_gtk_message_dialog_new parent flags type buttons msg →
       t = [ECall gtk_message_dialog_new
              [parent; Vint flags; Vint type; Vint buttons; Vstr "%s"; msg] r]).
Proof.
  intros Hrun.
  destruct c as [| | | | | | | | | |a| | | | | |]; try destruct a;
    unfold_shims; exec_in Hrun; simplify_eq;
    (split; [cbn; sublist_solve|]);
    (split; [cbn; congruence|]);
    (split; [cbn; congruence|]);
    (split; [cbn; congruence|]);
    (split; [cbn; congruence|]);
    (split; [intros ??? [=]; subst; eauto|]);
    intros ????? [=]; subst; reflexivity.
Qed.

Lemma C1_forwarding_witness :
  run sample_library
      (body (I_gtk_message_dialog_new Vnull 1 3 2 (Vstr "disk 100%d full")))
      (world_of one_word_heap)
  = ([ECall gtk_message_dialog_new
        [Vnull; Vint 1; Vint 3; Vint 2; Vstr "%s"; Vstr "disk 100%d full"]
        (Vstr "handle")],
     Done (Vstr "handle") (world_of one_word_heap))
  ∧ [Vnull; Vint 1; Vint 3; Vint 2; Vstr "disk 100%d full"]
      `sublist_of`
      [Vnull; Vint 1; Vint 3; Vint 2; Vstr "%s"; Vstr "disk 100%d full"].
Proof.
  split; [reflexivity|].
  exact (proj1 (C1_forwarding unit sample_library
    (I_gtk_message_dialog_new Vnull 1 3 2 (Vstr "disk 100%d full"))
    (world_of one_word_heap) _ _ _ eq_refl)).
Defined.

(** ** One forward per function (C2) *)

(** C2, counterexample: [_g_closure_new] calls [g_closure_new_simple] and
    then [g_closure_set_marshal], and [_g_value_init] allocates with
    [g_new0] and then calls [g_value_init]. *)
Lemma C2_closure_new_makes_two_calls :
  (run sample_library (body I_g_closure_new) (world_of ∅)).1
  = [ECall g_closure_new_simple [Vsizeof_GClosure; Vnull] (Vstr "handle");
     ECall g_closure_set_marshal [Vstr "handle"; Vfunptr goMarshal] Vvoid]
  ∧ ¬ single_forward sample_library I_g_closure_new (world_of ∅)
  ∧ (run sample_library (body (I_g_value_init 20)) (world_of ∅)).1
    = [ENew0 TGValue 1 (Some (Vptr 1 0));
       ECall g_value_init [Vptr 1 0; Vint 20] (Vptr 1 0)]
  ∧ ¬ single_forward sample_library (I_g_value_init 20) (world_of ∅).
Proof.
  repeat split; try reflexivity.
  - intros (e & He & _). vm_compute in He. discriminate He.
  - intros (e & He & _). vm_compute in He. discriminate He.
Qed.

Lemma g_new0_positive t n h :
  0 < n →
  g_new0 t n h
  = Some (Vptr (fresh (dom h)) 0,
          <[fresh (dom h) := replicate (Z.to_nat n) (zero_of t)]> h).
Proof.
  intros Hn. unfold g_new0.
  destruct (decide (n < 0)); [lia|].
  destruct (decide (n = 0)); [lia|]. reflexivity.
Qed.

(** C2, as amended: no run performs more native operations than
    [native_op_count] tells, and a completed run performs exactly that
    many: none for [val_list_insert], [set_type], [error_get_message] and
    the variant-type accessors, two for [_g_value_init], [_g_closure_new]
    and [object_get_class_name], one for every other function.
    The operations of a run are, by name and in order, the first ones
    of [native_sequence], and all of them when the run completes.
    [_g_closure_new] calls [g_closure_new_simple] and then
    [g_closure_set_marshal] with [goMarshal]; [_g_value_init] allocates
    one [GValue] with [g_new0] and then calls [g_value_init] on it;
    [object_get_class_name] uses [G_OBJECT_GET_CLASS] on its argument and
    then [G_OBJECT_CLASS_NAME] on the class so found, and returns the
    name. *)
Theorem C2_native_operations L (lib : library L) (c : invocation)
    (w : world L) (t : list event) (o : outcome L cval) :
  run lib (body c) w = (t, o) →
  (length (native_ops t) ≤ native_op_count c)%nat
  ∧ (∀ r w', o = Done r w' → length (native_ops t) = native_op_count c)
  ∧ (c = I_g_closure_new →
     ∃ r1 r2, t = [ECall g_closure_new_simple [Vsizeof_GClosure; Vnull] r1;
                   ECall g_closure_set_marshal [r1; Vfunptr goMarshal] r2]
              ∧ ∃ w', o = Done r1 w')
  ∧ (∀ g_type, c = I_g_value_init g_type →
     ∃ p r, t = [ENew0 TGValue 1 (Some p); ECall g_value_init [p; Vint g_type] r]
            ∧ p = Vptr (fresh (dom (w_heap w))) 0)
  ∧ omap name_of t `prefix_of` native_sequence c
  ∧ (∀ r w', o = Done r w' → omap name_of t = native_sequence c)
  ∧ (∀ object r w', c = I_object_get_class_name object → o = Done r w' →
     ∃ klass, t = [ECall G_OBJECT_GET_CLASS [object] klass;
                   ECall G_OBJECT_CLASS_NAME [klass] r]
              ∧ read_first (w_heap w) object = Some klass).
Proof.
  intros Hrun.
  destruct c as [| | | | | | | | | |a| | | | | |]; try destruct a;
    unfold_shims; cbn in Hrun;
    try rewrite (g_new0_positive TGValue 1) in Hrun by lia;
    exec_in Hrun; simplify_eq; cbn;
    (split; [lia|]);
    (split; [intros ?? [=]; subst; reflexivity || lia|]);
    (split; [intros [=]; eauto|]);
    (split; [intros ? [=]; subst; eauto|]);
    (split; [by (eexists; cbn; reflexivity)|]);
    (split; [by intros ?? [=]|]);
    intros ??? [=] [=]; subst; eauto.
Qed.

Lemma C2_native_operations_witness :
  run sample_library (body (I_object_get_class_name (Vptr 1 0)))
      (world_of one_object)
  = ([ECall G_OBJECT_GET_CLASS [Vptr 1 0] (Vptr 2 0);
      ECall G_OBJECT_CLASS_NAME [Vptr 2 0] (Vstr "handle")],
     Done (Vstr "handle") (world_of one_object))
  ∧ (length (native_ops
       [ECall G_OBJECT_GET_CLASS [Vptr 1 0] (Vptr 2 0);
        ECall G_OBJECT_CLASS_NAME [Vptr 2 0] (Vstr "handle")]) ≤ 2)%nat.
Proof.
  split; [reflexivity|].
  exact (proj1 (C2_native_operations unit sample_library
    (I_object_get_class_name (Vptr 1 0)) (world_of one_object) _ _ eq_refl)).
Defined.

(** ** Variant-type accessors (C3) *)

(** C3: in every state and with every native library, an accessor
    performs no operation, leaves the state as it is and returns the
    descriptor of the macro of its name; two calls in a row, and two calls
    in two unrelated states, return the same pointer. *)
Theorem C3_variant_type_accessors L (lib : library L) (a : accessor)
    (w w2 : world L) :
  run lib (accessor_body a) w
  = ([], Done (Vvariant_type (corresponding_macro a)) w)
  ∧ run lib (call_twice a) w
    = ([], Done (Vvariant_type (corresponding_macro a),
                 Vvariant_type (corresponding_macro a)) w)
  ∧ run lib (accessor_body a) w2
    = ([], Done (Vvariant_type (corresponding_macro a)) w2).
Proof. destruct a; repeat split. Qed.

(** ** Memory lemmas *)

Lemma assign_inv h p i x h' :
  assign h p i x = Some h' →
  ∃ b ofs l old,
    p = Vptr b ofs ∧ h !! b = Some l ∧ 0 <= ofs + i
    ∧ l !! Z.to_nat (ofs + i) = Some old ∧ same_kind old x = true
    ∧ h' = <[b := <[Z.to_nat (ofs + i) := x]> l]> h.
Proof.
  unfold assign. intros H.
  destruct p as [| |b ofs| | | | |]; try discriminate.
  destruct (h !! b) as [l|] eqn:Hb; [|discriminate].
  destruct (decide (0 <= ofs + i)); [|discriminate].
  destruct (l !! Z.to_nat (ofs + i)) as [old|] eqn:Hl; [|discriminate].
  destruct (same_kind old x) eqn:Hk; [|discriminate].
  exists b, ofs, l, old. by simplify_eq.
Qed.

Lemma assign_defined h b ofs i x l old :
  h !! b = Some l → 0 <= ofs + i →
  l !! Z.to_nat (ofs + i) = Some old → same_kind old x = true →
  assign h (Vptr b ofs) i x = Some (<[b := <[Z.to_nat (ofs + i) := x]> l]> h).
Proof.
  intros Hb Hi Hl Hk. unfold assign. rewrite Hb.
  destruct (decide (0 <= ofs + i)); [|lia]. by rewrite Hl, Hk.
Qed.

Lemma assign_dom h p i x h' :
  assign h p i x = Some h' → dom h' = dom h.
Proof.
  intros (b & ofs & l & old & -> & Hb & _ & _ & _ & ->)%assign_inv.
  apply dom_insert_lookup_L. by exists l.
Qed.

Lemma assign_other_block h p i x h' b ofs b' :
  assign h p i x = Some h' → p = Vptr b ofs → b' ≠ b → h' !! b' = h !! b'.
Proof.
  intros (b0 & ofs0 & l & old & -> & _ & _ & _ & _ & ->)%assign_inv [= -> ->] Hne.
  by rewrite lookup_insert_ne.
Qed.

Lemma assign_deref_same h p i x h' :
  assign h p i x = Some h' → deref h' p i = Some x.
Proof.
  intros (b & ofs & l & old & -> & Hb & Hi & Hl & _ & ->)%assign_inv.
  unfold deref. destruct (decide (0 <= ofs + i)); [|lia].
  rewrite lookup_insert_eq. cbn.
  apply list_lookup_insert_eq. by eapply lookup_lt_Some.
Qed.

Lemma assign_deref_other h p i x h' q j :
  assign h p i x = Some h' → address q j ≠ address p i →
  deref h' q j = deref h q j.
Proof.
  intros (b & ofs & l & old & -> & Hb & Hi & Hl & _ & ->)%assign_inv Hne.
  destruct q as [| |b' ofs'| | | | |]; try reflexivity.
  unfold deref. cbn in Hne.
  destruct (decide (0 <= ofs' + j)); [|reflexivity].
  destruct (decide (b' = b)) as [->|Hb'].
  - rewrite lookup_insert_eq, Hb. cbn.
    apply list_lookup_insert_ne. intros Heq.
    apply Hne. do 2 f_equal. lia.
  - by rewrite lookup_insert_ne.
Qed.

(** ** No state of its own (C4) *)

Lemma body_static_free c : static_free (body c).
Proof.
  destruct c as [| | | | | | | | | |a| | | | | |]; try destruct a;
    unfold_shims; cbn;
    repeat first [ intros [?|?|?]; cbn | intros ?; cbn | constructor ].
Qed.

Lemma run_static_free {L A} (lib : library L) (p : shim A) :
  static_free p →
  ∀ h l s s',
    (run lib p (World h l s')).1 = (run lib p (World h l s)).1
    ∧ (run lib p (World h l s')).2
      = with_statics s' (run lib p (World h l s)).2
    ∧ Forall (λ e, is_static e = false) (run lib p (World h l s)).1
    ∧ (∀ r w', (run lib p (World h l s)).2 = Done r w' → w_statics w' = s).
Proof.
  induction 1 as [a| |f args k _ IH|t n k _ IH|p i k _ IH|p i x k _ IH];
    intros h l s s'; cbn.
  - repeat split; [constructor|]. by intros ?? [= _ <-].
  - repeat split; [constructor|]. by intros ?? [=].
  - destruct (native_step lib f args h l) as [r|]; cbn.
    + destruct (IH (r_val r) (r_heap r) (r_lib r) s s') as (-> & -> & ? & ?).
      repeat split; [by constructor|done].
    + repeat split; [by repeat constructor|]. by intros ?? [=].
  - destruct (g_new0 t n h) as [[q h']|]; cbn.
    + destruct (IH q h' l s s') as (-> & -> & ? & ?).
      repeat split; [by constructor|done].
    + repeat split; [by repeat constructor|]. by intros ?? [=].
  - destruct (deref h p i) as [c|]; cbn.
    + destruct (IH c h l s s') as (-> & -> & ? & ?).
      repeat split; [by constructor|done].
    + repeat split; [by repeat constructor|]. by intros ?? [=].
  - destruct (assign h p i x) as [h'|]; cbn.
    + destruct (IH h' l s s') as (-> & -> & ? & ?).
      repeat split; [by constructor|done].
    + repeat split; [by repeat constructor|]. by intros ?? [=].
Qed.

(** C4: a function of the repository never reads or writes a file-scope
    variable; run from two states that differ only in those variables, it
    performs the same operations, returns the same result and leaves the
    same heap and library state, and the variables are as they were.
    [val_list_insert] and [set_type] leave the library state and the set
    of live blocks as they were, and every block other than the one their
    pointer argument addresses unchanged. *)
Theorem C4_stateless L (lib : library L) (c : invocation)
    (h : heap) (l : L) (s s' : gmap string cval) :
  static_free (body c)
  ∧ Forall (λ e, is_static e = false) (run lib (body c) (World h l s)).1
  ∧ (run lib (body c) (World h l s')).1 = (run lib (body c) (World h l s)).1
  ∧ (run lib (body c) (World h l s')).2
    = with_statics s' (run lib (body c) (World h l s)).2
  ∧ (∀ r w', (run lib (body c) (World h l s)).2 = Done r w' →
       w_statics w' = s)
  ∧ (∀ p i x r w',
       (c = I_val_list_insert p i x ∨ ∃ n t, c = I_set_type p n t) →
       (run lib (body c) (World h l s)).2 = Done r w' →
       w_lib w' = l ∧ dom (w_heap w') = dom h
       ∧ ∀ b ofs b', p = Vptr b ofs → b' ≠ b → w_heap w' !! b' = h !! b').
Proof.
  pose proof (run_static_free lib (body c) (body_static_free c) h l s s')
    as (Ht & Ho & Hs & Hw).
  split; [apply body_static_free|].
  do 4 (split; [done|]).
  intros p i x r w' Hc Hrun.
  destruct Hc as [->|(n & t & ->)]; unfold_shims; exec_in Hrun; simplify_eq;
    cbn; (split; [done|]); (split; [by eapply assign_dom|]);
    intros ??? -> ?; by eapply assign_other_block.
Qed.

Lemma C4_stateless_witness :
  (run sample_library (body (I_set_type (Vptr 1 0) 0 5))
       (World one_word_heap tt statics_sample)).2
  = with_statics statics_sample
      (run sample_library (body (I_set_type (Vptr 1 0) 0 5))
           (World one_word_heap tt ∅)).2.
Proof.
  exact (proj1 (proj2 (proj2 (proj2
    (C4_stateless unit sample_library (I_set_type (Vptr 1 0) 0 5)
       one_word_heap tt ∅ statics_sample))))).
Defined.

(** ** No validation (C5) *)

Lemma assign_undefined h p i x :
  deref h p i = None → assign h p i x = None.
Proof.
  unfold deref, assign. destruct p as [| |b ofs| | | | |]; try done.
  destruct (h !! b) as [l|]; [|done]. cbn.
  destruct (decide (0 <= ofs + i)); [|done].
  by intros ->.
Qed.

(** C5: every function is a straight line: with every native library and
    in every state it runs, operation for operation and with the same
    result, as the line of [script], whose operands are the function's
    arguments, constants and the results of its earlier operations, and
    which has no test, no second attempt and no other result to fall
    back on.  Whatever its arguments and the state, a function starts
    with the operation of [first_operation], which depends on the
    arguments alone, and performs at most two operations in all.
    [error_get_message]
    reads through [error] at once, so that a NULL or dangling [error] is
    undefined behaviour and no error value; [val_list_insert] stores at
    [valv[i]] for every [i], so that an [i] outside the array is undefined
    behaviour as well. *)
Theorem C5_no_validation L (lib : library L) (c : invocation) (w : world L) :
  head (operation_of <$> (run lib (body c) w).1) = first_operation c
  ∧ (length (run lib (body c) w).1 ≤ 2)%nat
  ∧ run lib (error_get_message Vnull) w = ([ELoad Vnull 0], UB)
  ∧ (∀ error, deref (w_heap w) error 0 = None →
       run lib (error_get_message error) w = ([ELoad error 0], UB))
  ∧ (∀ valv i val g, deref (w_heap w) val 0 = Some (CGValue g) →
       (run lib (val_list_insert valv i val) w).1
       = [ELoad val 0; EStore valv i (CGValue g)])
  ∧ (∀ valv i val g, deref (w_heap w) val 0 = Some (CGValue g) →
       deref (w_heap w) valv i = None →
       (run lib (val_list_insert valv i val) w).2 = UB)
  ∧ run lib (body c) w
    = run lib (straight_line (script c).1 (script c).2 []) w.
Proof.
  split.
  { destruct c as [| | | | | | | | | |a| | | | | |]; try destruct a;
      unfold_shims; exec; reflexivity. }
  split.
  { destruct c as [| | | | | | | | | |a| | | | | |]; try destruct a;
      unfold_shims; exec; lia. }
  split; [reflexivity|].
  split.
  { intros error Herr. unfold_shims. cbn. by rewrite Herr. }
  split.
  { intros valv i val g Hval. unfold_shims. cbn. rewrite Hval. cbn.
    by destruct (assign (w_heap w) valv i (CGValue g)). }
  split.
  { intros valv i val g Hval Hvalv. unfold_shims. cbn. rewrite Hval. cbn.
    by rewrite (assign_undefined _ _ _ _ Hvalv). }
  destruct c as [| | | | | | | | | |a| | | | | |]; try destruct a;
    unfold_shims; exec; reflexivity.
Qed.

Lemma C5_no_validation_witness :
  deref two_arrays (Vptr 2 0) 0
  = Some (CGValue {| g_type := 24; data := (5, 0) |})
  ∧ deref two_arrays (Vptr 1 0) 2 = None
  ∧ (run sample_library (val_list_insert (Vptr 1 0) 2 (Vptr 2 0))
         (world_of two_arrays)).2 = UB.
Proof.
  split; [reflexivity|]. split; [reflexivity|].
  exact (proj1 (proj2 (proj2 (proj2 (proj2 (proj2
    (C5_no_validation unit sample_library I_g_closure_new
       (world_of two_arrays)))))))
    (Vptr 1 0) 2 (Vptr 2 0) _ eq_refl eq_refl).
Defined.

(** ** Allocation and copies (C6) *)

(** C6, counterexample: [alloc_gvalue_list 2] and [alloc_types 2] each add
    a block of two zeroed elements to the heap, and [val_list_insert]
    copies the structure found at [val] into [valv[1]]. *)
Lemma C6_allocation_and_struct_copy :
  run sample_library (body (I_alloc_gvalue_list 2)) (world_of ∅)
  = ([ENew0 TGValue 2 (Some (Vptr 1 0))],
     Done (Vptr 1 0)
       (world_of {[ 1%positive := [CGValue zero_GValue; CGValue zero_GValue] ]}))
  ∧ ¬ only_forwards_pointers sample_library (I_alloc_gvalue_list 2) (world_of ∅)
  ∧ run sample_library (body (I_alloc_types 2)) (world_of ∅)
    = ([ENew0 TGType 2 (Some (Vptr 1 0))],
       Done (Vptr 1 0)
         (world_of {[ 1%positive := [CWord (Vint 0); CWord (Vint 0)] ]}))
  ∧ ¬ only_forwards_pointers sample_library (I_alloc_types 2) (world_of ∅)
  ∧ run sample_library (body (I_val_list_insert (Vptr 1 0) 1 (Vptr 2 0)))
        (world_of two_arrays)
    = ([ELoad (Vptr 2 0) 0;
        EStore (Vptr 1 0) 1 (CGValue {| g_type := 24; data := (5, 0) |})],
       Done Vvoid
         (world_of
            {[ 1%positive := [CGValue zero_GValue;
                              CGValue {| g_type := 24; data := (5, 0) |}];
               2%positive := [CGValue {| g_type := 24; data := (5, 0) |}] ]}))
  ∧ ¬ only_forwards_pointers sample_library
        (I_val_list_insert (Vptr 1 0) 1 (Vptr 2 0)) (world_of two_arrays).
Proof.
  repeat split; try (vm_compute; reflexivity).
  - intros [Ha _]. vm_compute in Ha.
    apply Forall_cons_1 in Ha as [Ha _]. discriminate Ha.
  - intros [Ha _]. vm_compute in Ha.
    apply Forall_cons_1 in Ha as [Ha _]. discriminate Ha.
  - intros [_ Hc]. vm_compute in Hc.
    apply Forall_cons_1 in Hc as [_ Hc].
    apply Forall_cons_1 in Hc as [Hc _]. discriminate Hc.
Qed.

(** C6, as amended: [alloc_gvalue_list], [alloc_types], [_g_value_alloc]
    and [_g_value_init] start by allocating with [g_new0], and no other
    function allocates; [val_list_insert] and [set_type] store through
    their pointer argument, and no other function writes memory itself;
    only [val_list_insert] copies a structure by value: when it
    completes, [valv[i]] holds the [GValue] that [val] pointed to. *)
Theorem C6_allocation_and_copies L (lib : library L) (c : invocation)
    (w : world L) :
  (allocates c = false →
     Forall (λ e, is_alloc e = false) (run lib (body c) w).1)
  ∧ (allocates c = true →
     ∃ e, head (run lib (body c) w).1 = Some e ∧ is_alloc e = true)
  ∧ (writes c = false →
     Forall (λ e, is_store e = false) (run lib (body c) w).1)
  ∧ ((∀ valv i val, c ≠ I_val_list_insert valv i val) →
     Forall (λ e, copies_struct e = false) (run lib (body c) w).1)
  ∧ (∀ valv i val r w',
       c = I_val_list_insert valv i val →
       (run lib (body c) w).2 = Done r w' →
       ∃ g, deref (w_heap w) val 0 = Some (CGValue g)
            ∧ deref (w_heap w') valv i = Some (CGValue g)
            ∧ (run lib (body c) w).1
              = [ELoad val 0; EStore valv i (CGValue g)]).
Proof.
  split.
  { intros Ha.
    destruct c as [| | | | | | | | | |a| | | | | |]; try destruct a;
      try discriminate Ha; unfold_shims; exec; repeat constructor. }
  split.
  { intros Ha.
    destruct c as [| | | | | | | | | |a| | | | | |]; try destruct a;
      try discriminate Ha; unfold_shims; exec; eauto. }
  split.
  { intros Ha.
    destruct c as [| | | | | | | | | |a| | | | | |]; try destruct a;
      try discriminate Ha; unfold_shims; exec; repeat constructor. }
  split.
  { intros Hc.
    destruct c as [| | |valv i val| | | | | | |a| | | | | |]; try destruct a;
      try (by destruct (Hc valv i val));
      unfold_shims; exec; repeat constructor. }
  intros valv i val r w' -> Hrun. unfold_shims.
  cbn in Hrun |- *.
  destruct (deref (w_heap w) val 0) as [[?|g|?]|] eqn:Hval;
    cbn in Hrun |- *; try discriminate Hrun.
  destruct (assign (w_heap w) valv i (CGValue g)) as [h'|] eqn:Hst;
    cbn in Hrun |- *; simplify_eq.
  exists g. cbn. split; [done|]. split; [by eapply assign_deref_same|done].
Qed.

Lemma C6_allocation_and_copies_witness :
  allocates (I_gtk_message_dialog_new Vnull 1 3 2 (Vstr "saved")) = false
  ∧ Forall (λ e, is_alloc e = false)
      (run sample_library
         (body (I_gtk_message_dialog_new Vnull 1 3 2 (Vstr "saved")))
         (world_of two_arrays)).1.
Proof.
  split; [reflexivity|].
  exact (proj1 (C6_allocation_and_copies unit sample_library
    (I_gtk_message_dialog_new Vnull 1 3 2 (Vstr "saved"))
    (world_of two_arrays)) eq_refl).
Defined.

(** ** The message of a dialog (C7) *)

Lemma append_empty_r (s : string) : String.append s EmptyString = s.
Proof.
  induction s as [|ch s IH]; [done|].
  change (String ch (String.append s EmptyString) = String ch s).
  by rewrite IH.
Qed.

(** C7: for every text [s], [_gtk_message_dialog_new] makes one native
    call, of [gtk_message_dialog_new], with the format ["%s"] in fifth
    place and [msg] as the only argument after it, and returns its
    result; the message that the call produces is [s] itself, whatever
    conversions [s] contains. *)
Theorem C7_message_verbatim L (lib : library L) (w : world L)
    (parent : cval) (flags type buttons : Z) (s : string) :
  let args := [parent; Vint flags; Vint type; Vint buttons;
               Vstr "%s"; Vstr s] in
  let r := lib gtk_message_dialog_new args (w_heap w) (w_lib w) in
  run lib (_gtk_message_dialog_new parent flags type buttons (Vstr s)) w
  = ([ECall gtk_message_dialog_new args (r_val r)],
     Done (r_val r) (World (r_heap r) (r_lib r) (w_statics w)))
  ∧ dialog_message args = Some s.
Proof.
  cbn. split; [reflexivity|].
  unfold dialog_message. cbn. by rewrite append_empty_r.
Qed.

(** What C7 rules out: were [msg] itself the format, a [%d] in it would
    be taken for a conversion. *)
Example message_as_format_is_not_verbatim :
  dialog_message [Vnull; Vint 1; Vint 3; Vint 2; Vstr "disk 100%d full"]
  = None
  ∧ dialog_message [Vnull; Vint 1; Vint 3; Vint 2; Vstr "%s";
                    Vstr "disk 100%d full"]
    = Some "disk 100%d full"%string.
Proof. split; reflexivity. Qed.

(** ** Writing one element (C8) *)

Lemma assign_total h p i x old :
  deref h p i = Some old → same_kind old x = true →
  ∃ h', assign h p i x = Some h'.
Proof.
  unfold deref. intros Hd Hk.
  destruct p as [| |b ofs| | | | |]; try discriminate.
  destruct (decide (0 <= ofs + i)) as [Hi|]; [|discriminate].
  destruct (h !! b) as [elems|] eqn:Hb; [|discriminate]. cbn in Hd.
  eexists. by eapply assign_defined.
Qed.

Lemma address_other_index p i j old h :
  deref h p i = Some old → j ≠ i → address p j ≠ address p i.
Proof.
  intros Hd Hne. destruct p as [| |b ofs| | | | |]; try discriminate.
  cbn. intros [=]. lia.
Qed.

(** A store at a defined element changes that element and no other. *)
Lemma assign_element (h : heap) p i x old :
  deref h p i = Some old → same_kind old x = true →
  ∃ h', assign h p i x = Some h'
    ∧ deref h' p i = Some x
    ∧ (∀ j, j ≠ i → deref h' p j = deref h p j)
    ∧ (∀ q j, address q j ≠ address p i → deref h' q j = deref h q j).
Proof.
  intros Hd Hk. destruct (assign_total _ _ _ _ _ Hd Hk) as [h' Hst].
  exists h'. split; [done|]. split; [by eapply assign_deref_same|]. split.
  - intros j Hj. eapply assign_deref_other; [done|].
    by eapply address_other_index.
  - intros q j Hq. by eapply assign_deref_other.
Qed.

(** C8: when [val] points to a [GValue] and [valv[i]] is an element of a
    [GValue] array, [val_list_insert valv i val] completes, [valv[i]] then
    holds the structure that [val] pointed to, and every other element,
    of [valv] or of any other array, is as it was; when [types[n]] is an
    element of a [GType] array, [set_type types n t] completes, [types[n]]
    then holds [t], and every other element is as it was. *)
Theorem C8_insert_and_set L (lib : library L) (w : world L) :
  (∀ valv i val g old,
     deref (w_heap w) val 0 = Some (CGValue g) →
     deref (w_heap w) valv i = Some (CGValue old) →
     ∃ h', run lib (val_list_insert valv i val) w
           = ([ELoad val 0; EStore valv i (CGValue g)],
              Done tt (World h' (w_lib w) (w_statics w)))
       ∧ deref h' valv i = Some (CGValue g)
       ∧ (∀ j, j ≠ i → deref h' valv j = deref (w_heap w) valv j)
       ∧ (∀ q j, address q j ≠ address valv i →
            deref h' q j = deref (w_heap w) q j))
  ∧ (∀ types n t old,
     deref (w_heap w) types n = Some (CWord old) →
     ∃ h', run lib (set_type types n t) w
           = ([EStore types n (CWord (Vint t))],
              Done tt (World h' (w_lib w) (w_statics w)))
       ∧ deref h' types n = Some (CWord (Vint t))
       ∧ (∀ j, j ≠ n → deref h' types j = deref (w_heap w) types j)
       ∧ (∀ q j, address q j ≠ address types n →
            deref h' q j = deref (w_heap w) q j)).
Proof.
  split.
  - intros valv i val g old Hval Hvalv.
    destruct (assign_element (w_heap w) valv i (CGValue g) _ Hvalv eq_refl)
      as (h' & Hst & Hrest).
    exists h'. split; [|done].
    unfold_shims. cbn. rewrite Hval. cbn. by rewrite Hst.
  - intros types n t old Htypes.
    destruct (assign_element (w_heap w) types n (CWord (Vint t)) _ Htypes
                eq_refl) as (h' & Hst & Hrest).
    exists h'. split; [|done].
    unfold_shims. cbn. by rewrite Hst.
Qed.

Lemma C8_insert_and_set_witness :
  deref two_arrays (Vptr 2 0) 0
  = Some (CGValue {| g_type := 24; data := (5, 0) |})
  ∧ deref two_arrays (Vptr 1 0) 1 = Some (CGValue zero_GValue)
  ∧ ∃ h', run sample_library (val_list_insert (Vptr 1 0) 1 (Vptr 2 0))
              (world_of two_arrays)
          = ([ELoad (Vptr 2 0) 0;
              EStore (Vptr 1 0) 1
                (CGValue {| g_type := 24; data := (5, 0) |})],
             Done tt (World h' tt ∅))
      ∧ deref h' (Vptr 1 0) 1
        = Some (CGValue {| g_type := 24; data := (5, 0) |})
      ∧ (∀ j, j ≠ 1 → deref h' (Vptr 1 0) j = deref two_arrays (Vptr 1 0) j)
      ∧ (∀ q j, address q j ≠ address (Vptr 1 0) 1 →
           deref h' q j = deref two_arrays q j).
Proof.
  split; [reflexivity|]. split; [reflexivity|].
  exact (proj1 (C8_insert_and_set unit sample_library (world_of two_arrays))
           (Vptr 1 0) 1 (Vptr 2 0) _ _ eq_refl eq_refl).
Defined.

(** ** Zeroed allocations (C9) *)

(** C9, counterexample: [alloc_gvalue_list 0] and [alloc_types 0] return
    NULL and allocate nothing. *)
Lemma C9_zero_length_is_null :
  run sample_library (alloc_gvalue_list 0) (world_of two_arrays)
  = ([ENew0 TGValue 0 (Some Vnull)], Done Vnull (world_of two_arrays))
  ∧ ¬ returns_fresh_zeroed_array sample_library (alloc_gvalue_list 0)
        TGValue 0 (world_of two_arrays)
  ∧ run sample_library (alloc_types 0) (world_of two_arrays)
    = ([ENew0 TGType 0 (Some Vnull)], Done Vnull (world_of two_arrays))
  ∧ ¬ returns_fresh_zeroed_array sample_library (alloc_types 0)
        TGType 0 (world_of two_arrays).
Proof.
  repeat split.
  - intros (r & h' & Hrun & b & -> & _). cbn in Hrun. discriminate Hrun.
  - intros (r & h' & Hrun & b & -> & _). cbn in Hrun. discriminate Hrun.
Qed.

Lemma fresh_zeroed_array_elements t n h r h' j :
  fresh_zeroed_array t n h r h' → 0 <= j < n →
  deref h' r j = Some (zero_of t).
Proof.
  intros (b & -> & _ & ->) Hj. unfold deref.
  destruct (decide (0 <= 0 + j)); [|lia].
  rewrite lookup_insert_eq. cbn.
  apply lookup_replicate_2. lia.
Qed.

Lemma g_new0_fresh {L} (lib : library L) t n (w : world L) :
  0 < n → returns_fresh_zeroed_array lib (new0 t n) t n w.
Proof.
  intros Hn. unfold returns_fresh_zeroed_array, new0. cbn.
  rewrite (g_new0_positive t n _ Hn). cbn.
  eexists _, _. split; [reflexivity|].
  exists (fresh (dom (w_heap w))). split; [done|]. split; [|done].
  apply not_elem_of_dom. apply is_fresh.
Qed.

(** C9, as amended: for [n > 0], [alloc_gvalue_list n] and [alloc_types n]
    return a new array of [n] elements, each of them zero; for [n = 0]
    they return NULL and leave the heap as it is; [_g_value_alloc] returns
    a new [GValue] that is all zero, so that its type tag is 0 and
    [G_IS_VALUE], as GObject defines it, does not hold of it. *)
Theorem C9_zeroed_allocations L (lib : library L) (w : world L) (n : Z) :
  (0 < n →
     returns_fresh_zeroed_array lib (alloc_gvalue_list n) TGValue n w
     ∧ returns_fresh_zeroed_array lib (alloc_types n) TGType n w)
  ∧ run lib (alloc_gvalue_list 0) w
    = ([ENew0 TGValue 0 (Some Vnull)], Done Vnull w)
  ∧ run lib (alloc_types 0) w
    = ([ENew0 TGType 0 (Some Vnull)], Done Vnull w)
  ∧ returns_fresh_zeroed_array lib _g_value_alloc TGValue 1 w
  ∧ (∀ t r h' j, fresh_zeroed_array t n (w_heap w) r h' → 0 <= j < n →
       deref h' r j = Some (zero_of t))
  ∧ zero_of TGValue = CGValue {| g_type := 0; data := (0, 0) |}
  ∧ zero_of TGType = CWord (Vint 0)
  ∧ (G_IS_VALUE_rejects_untyped lib →
     ∃ w', (run lib alloc_then_check w).2 = Done (Vint 0) w').
Proof.
  split.
  { intros Hn. split.
    - apply (g_new0_fresh lib TGValue n w Hn).
    - apply (g_new0_fresh lib TGType n w Hn). }
  split; [by destruct w|]. split; [by destruct w|].
  split; [apply (g_new0_fresh lib TGValue 1 w); lia|].
  split; [intros t r h' j; apply fresh_zeroed_array_elements|].
  split; [done|]. split; [done|].
  intros Hlib. unfold alloc_then_check. unfold_shims. cbn.
  rewrite (g_new0_positive TGValue 1) by lia. cbn.
  eexists. f_equal.
  eapply (Hlib _ _ _ zero_GValue); [|done].
  unfold deref. cbn. by rewrite lookup_insert_eq.
Qed.

Lemma sample_library_rejects_untyped :
  G_IS_VALUE_rejects_untyped sample_library.
Proof.
  intros p h l g Hd Hg. unfold sample_library. rewrite Hd.
  by destruct (decide (g_type g = 0)).
Qed.

Lemma C9_zeroed_allocations_witness :
  0 < 3
  ∧ returns_fresh_zeroed_array sample_library (alloc_gvalue_list 3)
      TGValue 3 (world_of two_arrays)
  ∧ G_IS_VALUE_rejects_untyped sample_library
  ∧ ∃ w', (run sample_library alloc_then_check (world_of two_arrays)).2
          = Done (Vint 0) w'.
Proof.
  split; [reflexivity|].
  split; [exact (proj1 (proj1 (C9_zeroed_allocations unit sample_library
                   (world_of two_arrays) 3) eq_refl))|].
  split; [exact sample_library_rejects_untyped|].
  exact (proj2 (proj2 (proj2 (proj2 (proj2 (proj2 (proj2
    (C9_zeroed_allocations unit sample_library (world_of two_arrays) 3)))))))
    sample_library_rejects_untyped).
Defined.


(** * Further properties of the helpers *)

(** ** Memory: more lemmas *)

Lemma deref_address h p i q j :
  address p i = address q j → deref h p i = deref h q j.
Proof.
  destruct p as [| |b ofs| | | | |], q as [| |b' ofs'| | | | |];
    try done; cbn; by intros [= -> ->].
Qed.

Lemma deref_insert_fresh (h : heap) b cells p i c :
  h !! b = None → deref h p i = Some c →
  deref (<[b := cells]> h) p i = Some c.
Proof.
  intros Hb. destruct p as [| |b' ofs| | | | |]; try done. unfold deref.
  destruct (decide (0 <= ofs + i)); [|done].
  destruct (decide (b' = b)) as [->|Hne].
  - by rewrite Hb.
  - by rewrite lookup_insert_ne.
Qed.

Lemma deref_fresh_array (h : heap) b n z i :
  deref (<[b := replicate (Z.to_nat n) z]> h) (Vptr b 0) i
  = if decide (0 <= i < n) then Some z else None.
Proof.
  unfold deref. rewrite lookup_insert_eq. cbn.
  destruct (decide (0 <= 0 + i)), (decide (0 <= i < n)); try lia; try done.
  - apply lookup_replicate_2. lia.
  - apply lookup_replicate_None. lia.
Qed.

Lemma assign_fresh_array (h : heap) b n z i x :
  same_kind z x = true →
  assign (<[b := replicate (Z.to_nat n) z]> h) (Vptr b 0) i x
  = if decide (0 <= i < n)
    then Some (<[b := <[Z.to_nat i := x]> (replicate (Z.to_nat n) z)]> h)
    else None.
Proof.
  intros Hk. destruct (decide (0 <= i < n)) as [Hi|Hi].
  - erewrite assign_defined;
      [|apply lookup_insert_eq|lia|apply lookup_replicate_2; lia|done].
    by rewrite insert_insert_eq.
  - apply assign_undefined. rewrite deref_fresh_array.
    by destruct (decide (0 <= i < n)).
Qed.

Lemma fresh_block_free (h : heap) : h !! fresh (dom h) = None.
Proof. apply not_elem_of_dom, is_fresh. Qed.

(** ** Allocation followed by a store *)

#[local] Arguments assign : simpl never.
#[local] Arguments deref : simpl never.

(** The outcome of [alloc_and_insert] in closed form. *)
Lemma run_alloc_and_insert {L} (lib : library L) (w : world L) n i val g :
  deref (w_heap w) val 0 = Some (CGValue g) →
  (run lib (alloc_and_insert n i val) w).2
  = if decide (n < 0) then Aborted
    else if decide (0 <= i < n)
    then Done (Vptr (fresh (dom (w_heap w))) 0)
           (World (<[fresh (dom (w_heap w)) :=
                      <[Z.to_nat i := CGValue g]>
                        (replicate (Z.to_nat n) (CGValue zero_GValue))]>
                     (w_heap w))
                  (w_lib w) (w_statics w))
    else UB.
Proof.
  intros Hval. unfold alloc_and_insert. unfold_shims. cbn. unfold g_new0.
  destruct (decide (n < 0)) as [|Hn]; [done|].
  destruct (decide (n = 0)) as [->|Hn0]; cbn.
  - rewrite Hval. cbn. by destruct (decide (0 <= i < 0)); [lia|].
  - rewrite (deref_insert_fresh _ _ _ _ _ _ (fresh_block_free _) Hval). cbn.
    rewrite (assign_fresh_array _ _ _ (CGValue zero_GValue)) by done.
    by destruct (decide (0 <= i < n)).
Qed.

(** The outcome of [alloc_and_set] in closed form. *)
Lemma run_alloc_and_set {L} (lib : library L) (w : world L) n k t :
  (run lib (alloc_and_set n k t) w).2
  = if decide (n < 0) then Aborted
    else if decide (0 <= k < n)
    then Done (Vptr (fresh (dom (w_heap w))) 0)
           (World (<[fresh (dom (w_heap w)) :=
                      <[Z.to_nat k := CWord (Vint t)]>
                        (replicate (Z.to_nat n) (CWord (Vint 0)))]>
                     (w_heap w))
                  (w_lib w) (w_statics w))
    else UB.
Proof.
  unfold alloc_and_set. unfold_shims. cbn. unfold g_new0.
  destruct (decide (n < 0)) as [|Hn]; [done|].
  destruct (decide (n = 0)) as [->|Hn0]; cbn.
  - by destruct (decide (0 <= k < 0)); [lia|].
  - rewrite (assign_fresh_array _ _ _ (CWord (Vint 0))) by done.
    by destruct (decide (0 <= k < n)).
Qed.

(** X1: on an array that [alloc_gvalue_list n] has just returned,
    [val_list_insert] at index [i] completes exactly when [0 <= i < n],
    and on one from [alloc_types n], [set_type] at [k] completes exactly
    when [0 <= k < n]; for [n >= 0] any other index, and every index
    when [n = 0], is undefined behaviour. *)
Theorem X1_fresh_array_bounds L (lib : library L) (w : world L)
    (n i : Z) (val : cval) (g : GValue) (k t : Z) :
  deref (w_heap w) val 0 = Some (CGValue g) →
  (completes (run lib (alloc_and_insert n i val) w).2 ↔ 0 <= i < n)
  ∧ (completes (run lib (alloc_and_set n k t) w).2 ↔ 0 <= k < n)
  ∧ (0 <= n → ¬ 0 <= i < n →
       (run lib (alloc_and_insert n i val) w).2 = UB)
  ∧ (0 <= n → ¬ 0 <= k < n →
       (run lib (alloc_and_set n k t) w).2 = UB).
Proof.
  intros Hval.
  rewrite (run_alloc_and_insert lib w n i val g Hval), run_alloc_and_set.
  destruct (decide (n < 0)), (decide (0 <= i < n)), (decide (0 <= k < n));
    repeat split; intros; try lia; try done; try (by eexists _, _);
    match goal with
    | H : completes _ |- _ => by destruct H as (? & ? & [=])
    end.
Qed.

Lemma X1_fresh_array_bounds_witness :
  deref two_arrays (Vptr 2 0) 0
  = Some (CGValue {| g_type := 24; data := (5, 0) |})
  ∧ (completes (run sample_library (alloc_and_insert 3 2 (Vptr 2 0))
                  (world_of two_arrays)).2 ↔ 0 <= 2 < 3).
Proof.
  split; [reflexivity|].
  exact (proj1 (X1_fresh_array_bounds unit sample_library
    (world_of two_arrays) 3 2 (Vptr 2 0) _ 0 0 eq_refl)).
Defined.

(** X2: for [0 <= i < n], allocating [n] values and inserting the value
    found at [val] at index [i] returns a new array whose element [i] is
    that value and whose other elements are zero, and leaves every block
    that was live before as it was. *)
Theorem X2_alloc_insert_contents L (lib : library L) (w : world L)
    (n i : Z) (val : cval) (g : GValue) :
  deref (w_heap w) val 0 = Some (CGValue g) → 0 <= i < n →
  ∃ b h',
    (run lib (alloc_and_insert n i val) w).2
    = Done (Vptr b 0) (World h' (w_lib w) (w_statics w))
    ∧ w_heap w !! b = None
    ∧ deref h' (Vptr b 0) i = Some (CGValue g)
    ∧ (∀ j, 0 <= j < n → j ≠ i →
         deref h' (Vptr b 0) j = Some (CGValue zero_GValue))
    ∧ (∀ j, ¬ 0 <= j < n → deref h' (Vptr b 0) j = None)
    ∧ (∀ b', b' ≠ b → h' !! b' = w_heap w !! b').
Proof.
  intros Hval Hi.
  rewrite (run_alloc_and_insert lib w n i val g Hval).
  destruct (decide (n < 0)); [lia|].
  destruct (decide (0 <= i < n)); [|lia].
  eexists _, _. split; [reflexivity|].
  split; [apply fresh_block_free|].
  unfold deref. rewrite lookup_insert_eq. cbn.
  split; [|split; [|split]].
  - destruct (decide (0 <= 0 + i)); [|lia].
    apply list_lookup_insert_eq. rewrite length_replicate. lia.
  - intros j Hj Hne. destruct (decide (0 <= 0 + j)); [|lia].
    rewrite list_lookup_insert_ne by lia.
    apply lookup_replicate_2. lia.
  - intros j Hj. destruct (decide (0 <= 0 + j)); [|done].
    apply lookup_ge_None. rewrite length_insert, length_replicate. lia.
  - intros b' Hb'. by rewrite lookup_insert_ne.
Qed.

Lemma X2_alloc_insert_contents_witness :
  deref two_arrays (Vptr 2 0) 0
  = Some (CGValue {| g_type := 24; data := (5, 0) |})
  ∧ 0 <= 1 < 3
  ∧ ∃ b h',
      (run sample_library (alloc_and_insert 3 1 (Vptr 2 0))
         (world_of two_arrays)).2
      = Done (Vptr b 0) (World h' tt ∅)
      ∧ two_arrays !! b = None
      ∧ deref h' (Vptr b 0) 1
        = Some (CGValue {| g_type := 24; data := (5, 0) |})
      ∧ (∀ j, 0 <= j < 3 → j ≠ 1 →
           deref h' (Vptr b 0) j = Some (CGValue zero_GValue))
      ∧ (∀ j, ¬ 0 <= j < 3 → deref h' (Vptr b 0) j = None)
      ∧ (∀ b', b' ≠ b → h' !! b' = two_arrays !! b').
Proof.
  split; [reflexivity|]. split; [lia|].
  exact (X2_alloc_insert_contents unit sample_library (world_of two_arrays)
           3 1 (Vptr 2 0) _ eq_refl ltac:(lia)).
Defined.

(** ** Running one program after another *)

Lemma run_bind_done {L A B} (lib : library L) (m : shim A) (f : A → shim B)
    (w : world L) a w' :
  (run lib m w).2 = Done a w' →
  (run lib (m ≫= f) w).2 = (run lib (f a) w').2.
Proof.
  unfold mbind, shim_mbind. revert w.
  induction m as [x| |g args k IH|t n k IH|p i k IH|p i x k IH|x k IH|x v k IH];
    intros w Hm; cbn in *.
  - by simplify_eq.
  - done.
  - destruct (native_step lib g args (w_heap w) (w_lib w)); cbn in *;
      [by apply IH|done].
  - destruct (g_new0 t n (w_heap w)) as [[q h]|]; cbn in *; [by apply IH|done].
  - destruct (deref (w_heap w) p i); cbn in *; [by apply IH|done].
  - destruct (assign (w_heap w) p i x); cbn in *; [by apply IH|done].
  - by apply IH.
  - by apply IH.
Qed.

(** ** Filling an array of types *)

Lemma run_set_types_from {L} (lib : library L) b (ts : list Z) :
  ∀ (pre old post : list cell) (h : heap) (l : L) (s : gmap string cval),
    length old = length ts →
    Forall (λ c, same_kind c (CWord Vnull) = true) old →
    h !! b = Some (pre ++ old ++ post) →
    (run lib (set_types_from (Vptr b 0) (Z.of_nat (length pre)) ts)
         (World h l s)).2
    = Done tt (World (<[b := pre ++ ((λ t, CWord (Vint t)) <$> ts) ++ post]> h)
                 l s).
Proof.
  induction ts as [|t ts IH]; intros pre old post h l s Hlen Hold Hb.
  - destruct old; [|done]. cbn. by rewrite insert_id.
  - destruct old as [|o old]; [done|]. cbn in Hlen.
    apply Forall_cons_1 in Hold as [Ho Hold].
    cbn [set_types_from]. unfold set_type, store, mbind, shim_mbind. cbn.
    assert (Hidx : Z.to_nat (0 + Z.of_nat (length pre)) = length pre) by lia.
    erewrite assign_defined; [|exact Hb|lia| |].
    2:{ rewrite Hidx. by apply list_lookup_middle. }
    2:{ by destruct o. }
    cbn. rewrite Hidx.
    replace (<[length pre := CWord (Vint t)]> (pre ++ o :: old ++ post))
      with ((pre ++ [CWord (Vint t)]) ++ old ++ post).
    2:{ rewrite insert_app_r_alt by lia. rewrite Nat.sub_diag. cbn.
        by rewrite <- app_assoc. }
    replace (Z.of_nat (length pre) + 1)
      with (Z.of_nat (length (pre ++ [CWord (Vint t)])))
      by (rewrite length_app; cbn; lia).
    rewrite (IH (pre ++ [CWord (Vint t)]) old post); [|lia|done|].
    + by rewrite insert_insert_eq, <- app_assoc.
    + by rewrite lookup_insert_eq.
Qed.

(** X3: for a list [ts] that is not empty, [alloc_types] for the number of
    its elements followed by [set_type] for each of them at its index
    completes and returns a new array that holds exactly the types of
    [ts], in order, every other block being as it was; reading index [k]
    back gives the [k]-th type.  For the empty list the result is NULL
    and the state is unchanged. *)
Theorem X3_types_array L (lib : library L) (w : world L) (ts : list Z) :
  (ts ≠ [] →
   ∃ b h',
     (run lib (types_array ts) w).2
     = Done (Vptr b 0) (World h' (w_lib w) (w_statics w))
     ∧ w_heap w !! b = None
     ∧ h' = <[b := (λ t, CWord (Vint t)) <$> ts]> (w_heap w)
     ∧ ∀ (k : nat) t, ts !! k = Some t →
         deref h' (Vptr b 0) (Z.of_nat k) = Some (CWord (Vint t)))
  ∧ (run lib (types_array []) w).2 = Done Vnull w.
Proof.
  split; [|by destruct w].
  intros Hts. exists (fresh (dom (w_heap w))). eexists.
  split; [|split; [apply fresh_block_free|split; [reflexivity|]]].
  - unfold types_array, alloc_types, new0, mbind, shim_mbind. cbn.
    rewrite g_new0_positive by (destruct ts; [done|cbn; lia]). cbn.
    fold (@shim_bind unit cval).
    change (shim_bind ?f ?m) with (m ≫= f).
    erewrite run_bind_done.
    2:{ apply (run_set_types_from lib _ ts []
                 (replicate (Z.to_nat (Z.of_nat (length ts))) (CWord (Vint 0)))
                 []).
        - rewrite length_replicate. lia.
        - by apply Forall_replicate.
        - by rewrite lookup_insert_eq, app_nil_r. }
    cbn. by rewrite insert_insert_eq, app_nil_r.
  - intros k t Hk. unfold deref.
    destruct (decide (0 <= 0 + Z.of_nat k)); [|lia].
    rewrite lookup_insert_eq. cbn.
    replace (Z.to_nat (0 + Z.of_nat k)) with k by lia.
    by rewrite list_lookup_fmap, Hk.
Qed.

Lemma X3_types_array_witness :
  [64; 24; 20] ≠ []
  ∧ ∃ b h',
      (run sample_library (types_array [64; 24; 20]) (world_of two_arrays)).2
      = Done (Vptr b 0) (World h' tt ∅)
      ∧ two_arrays !! b = None
      ∧ h' = <[b := (λ t, CWord (Vint t)) <$> [64; 24; 20]]> two_arrays
      ∧ ∀ (k : nat) t, [64; 24; 20] !! k = Some t →
          deref h' (Vptr b 0) (Z.of_nat k) = Some (CWord (Vint t)).
Proof.
  split; [discriminate|].
  exact (proj1 (X3_types_array unit sample_library (world_of two_arrays)
                  [64; 24; 20]) ltac:(discriminate)).
Defined.

(** ** Two stores in a row *)

Lemma same_kind_sym a b : same_kind a b = true → same_kind b a = true.
Proof. by destruct a, b. Qed.

Lemma same_kind_trans a b c :
  same_kind a b = true → same_kind b c = true → same_kind a c = true.
Proof. by destruct a, b, c. Qed.

Lemma assign_overwrite h p i x y h1 :
  assign h p i x = Some h1 → same_kind x y = true →
  assign h1 p i y = assign h p i y.
Proof.
  intros (b & ofs & cells & old & -> & Hb & Hi & Hl & Hk & ->)%assign_inv Hxy.
  rewrite (assign_defined h b ofs i y cells old Hb Hi Hl)
    by (by eapply same_kind_trans).
  erewrite assign_defined;
    [|apply lookup_insert_eq|done
     |apply list_lookup_insert_eq; by eapply lookup_lt_Some|done].
  by rewrite insert_insert_eq, list_insert_insert_eq.
Qed.

Lemma assign_fails_alike h p i x y :
  same_kind x y = true → assign h p i x = None → assign h p i y = None.
Proof.
  intros Hxy Hx. destruct (assign h p i y) as [h2|] eqn:Hy; [|done].
  apply assign_inv in Hy as (b & ofs & cells & old & -> & Hb & Hi & Hl & Hk & _).
  rewrite (assign_defined h b ofs i x cells old Hb Hi Hl) in Hx; [done|].
  eapply same_kind_trans; [done|by apply same_kind_sym].
Qed.

Lemma assign_both h p i j x y h1 h2 :
  i ≠ j → assign h p i x = Some h1 → assign h p j y = Some h2 →
  ∃ h12, assign h1 p j y = Some h12 ∧ assign h2 p i x = Some h12.
Proof.
  intros Hij
    (b & ofs & cells & old & -> & Hb & Hi & Hl & Hk & ->)%assign_inv
    (b' & ofs' & cells' & old' & [= <- <-] & Hb' & Hj & Hl' & Hk' & ->)%assign_inv.
  simplify_eq.
  assert (Hne : Z.to_nat (ofs + i) ≠ Z.to_nat (ofs + j)) by lia.
  eexists. split.
  - erewrite assign_defined;
      [|apply lookup_insert_eq|done
       |by rewrite list_lookup_insert_ne|done].
    by rewrite insert_insert_eq.
  - erewrite assign_defined;
      [|apply lookup_insert_eq|done
       |by rewrite list_lookup_insert_ne|done].
    by rewrite insert_insert_eq, list_insert_insert_ne.
Qed.

Lemma assign_other_index_fails h p i j x y h1 :
  i ≠ j → assign h p i x = Some h1 → assign h p j y = None →
  assign h1 p j y = None.
Proof.
  intros Hij Hx Hy. destruct (assign h1 p j y) as [h12|] eqn:Hxy; [|done].
  apply assign_inv in Hx
    as (b & ofs & cells & old & -> & Hb & Hi & Hl & Hk & ->).
  apply assign_inv in Hxy
    as (b' & ofs' & cells' & old' & [= <- <-] & Hb' & Hj & Hl' & Hk' & _).
  rewrite lookup_insert_eq in Hb'. simplify_eq.
  rewrite list_lookup_insert_ne in Hl' by lia.
  by rewrite (assign_defined h b ofs j y cells old' Hb Hj Hl' Hk') in Hy.
Qed.

Lemma assign_commute (h : heap) p i j x y :
  i ≠ j →
  (h1 ← assign h p i x; assign h1 p j y)
  = (h2 ← assign h p j y; assign h2 p i x).
Proof.
  intros Hij.
  destruct (assign h p i x) as [h1|] eqn:Hx,
           (assign h p j y) as [h2|] eqn:Hy; cbn.
  - destruct (assign_both h p i j x y h1 h2 Hij Hx Hy) as (h12 & -> & ->).
    done.
  - by eapply assign_other_index_fails.
  - symmetry. by eapply (assign_other_index_fails h p j i).
  - done.
Qed.

(** The outcome of two stores of a type, from the two assignments. *)
Lemma run_set_type_twice {L} (lib : library L) (w : world L) types n t1 m t2 :
  (run lib (set_type_twice types n t1 m t2) w).2
  = match h1 ← assign (w_heap w) types n (CWord (Vint t1));
          assign h1 types m (CWord (Vint t2)) with
    | Some h' => Done tt (World h' (w_lib w) (w_statics w))
    | None => UB
    end.
Proof.
  unfold set_type_twice. unfold_shims. cbn.
  destruct (assign (w_heap w) types n (CWord (Vint t1))) as [h1|]; cbn; [|done].
  by destruct (assign h1 types m (CWord (Vint t2))).
Qed.

Lemma run_set_type {L} (lib : library L) (w : world L) types n t :
  (run lib (set_type types n t) w).2
  = match assign (w_heap w) types n (CWord (Vint t)) with
    | Some h' => Done tt (World h' (w_lib w) (w_statics w))
    | None => UB
    end.
Proof.
  unfold_shims. cbn.
  by destruct (assign (w_heap w) types n (CWord (Vint t))).
Qed.

(** X4: a second [set_type] at the same index replaces the first: the
    two calls leave the state that the second alone leaves, and fail
    when it alone fails.  The same holds of two [val_list_insert] at one
    index when the first value is readable and the second value is not
    the element being written. *)
Theorem X4_last_write_wins L (lib : library L) (w : world L) :
  (∀ types n t1 t2,
     (run lib (set_type_twice types n t1 n t2) w).2
     = (run lib (set_type types n t2) w).2)
  ∧ (∀ valv i val1 val2 g1,
       deref (w_heap w) val1 0 = Some (CGValue g1) →
       address val2 0 ≠ address valv i →
       (run lib (val_list_insert_twice valv i val1 i val2) w).2
       = (run lib (val_list_insert valv i val2) w).2).
Proof.
  split.
  - intros types n t1 t2. rewrite run_set_type_twice, run_set_type.
    destruct (assign (w_heap w) types n (CWord (Vint t1))) as [h1|] eqn:H1; cbn.
    + by rewrite (assign_overwrite _ _ _ _ (CWord (Vint t2)) _ H1).
    + by rewrite (assign_fails_alike _ _ _ (CWord (Vint t1)) (CWord (Vint t2))
                    eq_refl H1).
  - intros valv i val1 val2 g1 Hval1 Hne.
    unfold val_list_insert_twice. unfold_shims. cbn. rewrite Hval1. cbn.
    destruct (assign (w_heap w) valv i (CGValue g1)) as [h1|] eqn:H1; cbn.
    + rewrite (assign_deref_other _ _ _ _ _ val2 0 H1 Hne).
      destruct (deref (w_heap w) val2 0) as [[?|g2|?]|]; cbn; try done.
      rewrite (assign_overwrite _ _ _ _ (CGValue g2) _ H1) by done.
      by destruct (assign (w_heap w) valv i (CGValue g2)).
    + destruct (deref (w_heap w) val2 0) as [[?|g2|?]|]; cbn; try done.
      by rewrite (assign_fails_alike _ _ _ (CGValue g1) (CGValue g2) eq_refl H1).
Qed.

Lemma X4_last_write_wins_witness :
  deref two_arrays (Vptr 1 0) 0 = Some (CGValue zero_GValue)
  ∧ address (Vptr 2 0) 0 ≠ address (Vptr 1 0) 1
  ∧ (run sample_library
       (val_list_insert_twice (Vptr 1 0) 1 (Vptr 1 0) 1 (Vptr 2 0))
       (world_of two_arrays)).2
    = (run sample_library (val_list_insert (Vptr 1 0) 1 (Vptr 2 0))
         (world_of two_arrays)).2.
Proof.
  split; [reflexivity|]. split; [discriminate|].
  exact (proj2 (X4_last_write_wins unit sample_library (world_of two_arrays))
           (Vptr 1 0) 1 (Vptr 1 0) (Vptr 2 0) _ eq_refl ltac:(discriminate)).
Defined.

(** X5: two [set_type] at different indices of one array can be made in
    either order: both orders leave the same state, and one fails
    exactly when the other does. *)
Theorem X5_set_type_commutes L (lib : library L) (w : world L)
    (types : cval) (n t1 m t2 : Z) :
  n ≠ m →
  (run lib (set_type_twice types n t1 m t2) w).2
  = (run lib (set_type_twice types m t2 n t1) w).2.
Proof.
  intros Hnm. rewrite !run_set_type_twice.
  by rewrite (assign_commute (w_heap w) types n m _ _ Hnm).
Qed.

Lemma X5_set_type_commutes_witness :
  0 ≠ 2
  ∧ (run sample_library (set_type_twice (Vptr 1 0) 0 64 2 20)
         (world_of three_types)).2
    = (run sample_library (set_type_twice (Vptr 1 0) 2 20 0 64)
         (world_of three_types)).2.
Proof.
  split; [discriminate|].
  exact (X5_set_type_commutes unit sample_library (world_of three_types)
           (Vptr 1 0) 0 64 2 20 ltac:(discriminate)).
Defined.

(** X6: a completed [val_list_insert] leaves the value at [val] as it
    was, also when [val] points into [valv], and changes neither the
    library state nor the set of live blocks; when [val] is the very
    element [valv[i]], the heap is unchanged. *)
Theorem X6_insert_keeps_source L (lib : library L) (w w' : world L)
    (valv : cval) (i : Z) (val : cval) :
  (run lib (val_list_insert valv i val) w).2 = Done tt w' →
  ∃ g, deref (w_heap w) val 0 = Some (CGValue g)
       ∧ deref (w_heap w') val 0 = Some (CGValue g)
       ∧ w_lib w' = w_lib w
       ∧ dom (w_heap w') = dom (w_heap w)
       ∧ (address val 0 = address valv i → w_heap w' = w_heap w).
Proof.
  unfold_shims. cbn.
  destruct (deref (w_heap w) val 0) as [[?|g|?]|] eqn:Hval; cbn; try done.
  destruct (assign (w_heap w) valv i (CGValue g)) as [h'|] eqn:Hst;
    cbn; [|done].
  intros [= <-]. cbn. exists g. split; [done|].
  split; [|split; [done|split; [by eapply assign_dom|]]].
  - destruct (decide (address val 0 = address valv i)) as [Heq|Hne].
    + rewrite (deref_address _ _ _ _ _ Heq). by eapply assign_deref_same.
    + by rewrite (assign_deref_other _ _ _ _ _ _ _ Hst Hne).
  - intros Heq. rewrite (deref_address _ _ _ _ _ Heq) in Hval.
    apply assign_inv in Hst
      as (b & ofs & cells & old & -> & Hb & Hi & Hl & _ & ->).
    unfold deref in Hval. destruct (decide (0 <= ofs + i)); [|done].
    rewrite Hb in Hval. cbn in Hval.
    by rewrite list_insert_id, insert_id.
Qed.

Lemma X6_insert_keeps_source_witness :
  (run sample_library (val_list_insert (Vptr 1 0) 1 (Vptr 2 0))
     (world_of two_arrays)).2
  = Done tt (world_of inserted_arrays)
  ∧ ∃ g, deref two_arrays (Vptr 2 0) 0 = Some (CGValue g)
         ∧ deref inserted_arrays (Vptr 2 0) 0 = Some (CGValue g)
         ∧ tt = tt
         ∧ dom inserted_arrays = dom two_arrays
         ∧ (address (Vptr 2 0) 0 = address (Vptr 1 0) 1 →
            inserted_arrays = two_arrays).
Proof.
  assert (Hrun : (run sample_library (val_list_insert (Vptr 1 0) 1 (Vptr 2 0))
                    (world_of two_arrays)).2
                 = Done tt (world_of inserted_arrays))
    by (vm_compute; reflexivity).
  split; [exact Hrun|].
  exact (X6_insert_keeps_source unit sample_library (world_of two_arrays)
           (world_of inserted_arrays) (Vptr 1 0) 1 (Vptr 2 0) Hrun).
Defined.

(** ** When the library is reached, and what is left alone *)

(** X7: [_g_object_set_one] completes exactly when [val] points into a
    live object; [g_object_set] is then called once, with the first word
    of that object, which for a [GValue] is its type tag, and a closing
    NULL.  When [val] is NULL or dangling the function stops at the read
    and [g_object_set] is not called. *)
Theorem X7_object_set_one_reaches_library L (lib : library L) (w : world L)
    (object property_name val : cval) :
  (completes (run lib (_g_object_set_one object property_name val) w).2
   ↔ ∃ x, deref (w_heap w) val 0 = Some x)
  ∧ (deref (w_heap w) val 0 = None →
     run lib (_g_object_set_one object property_name val) w
     = ([ELoad val 0], UB))
  ∧ (∀ x, deref (w_heap w) val 0 = Some x →
     (run lib (_g_object_set_one object property_name val) w).1
     = [ELoad val 0;
        ECall g_object_set [object; property_name; first_word x; Vnull]
          (r_val (lib g_object_set
                    [object; property_name; first_word x; Vnull]
                    (w_heap w) (w_lib w)))]).
Proof.
  unfold_shims. cbn.
  destruct (deref (w_heap w) val 0) as [x|]; cbn.
  - split; [split; [by eauto|intros _; by eexists _, _]|].
    split; [done|]. by intros ? [= <-].
  - split; [split; [by intros (? & ? & [=])|by intros (? & [=])]|].
    by split.
Qed.

Lemma X7_object_set_one_reaches_library_witness :
  deref two_arrays (Vptr 2 0) 0
  = Some (CGValue {| g_type := 24; data := (5, 0) |})
  ∧ (run sample_library
       (_g_object_set_one (Vptr 1 0) (Vstr "label") (Vptr 2 0))
       (world_of two_arrays)).1
    = [ELoad (Vptr 2 0) 0;
       ECall g_object_set [Vptr 1 0; Vstr "label"; Vint 24; Vnull] Vvoid].
Proof.
  split; [reflexivity|].
  exact (proj2 (proj2 (X7_object_set_one_reaches_library unit sample_library
    (world_of two_arrays) (Vptr 1 0) (Vstr "label") (Vptr 2 0)))
    _ eq_refl).
Defined.

Lemma g_new0_extends t n (h : heap) r h' :
  g_new0 t n h = Some (r, h') → h ⊆ h'.
Proof.
  unfold g_new0. destruct (decide (n < 0)); [done|].
  destruct (decide (n = 0)); intros [= <- <-]; [done|].
  apply insert_subseteq, fresh_block_free.
Qed.

Lemma g_new0_aborts t n (h : heap) : g_new0 t n h = None → n < 0.
Proof.
  unfold g_new0. destruct (decide (n < 0)); [done|].
  by destruct (decide (n = 0)).
Qed.

(** X8: with a native library that leaves the heap alone, a completed
    call of any function other than the allocators, [val_list_insert] and
    [set_type] leaves the heap exactly as it was; an allocator only adds
    to it, every block that was live keeping its contents; and no
    function ever removes a block. *)
Theorem X8_heap_frame L (lib : library L) (c : invocation) (w w' : world L)
    (t : list event) (r : cval) :
  heap_preserving lib →
  run lib (body c) w = (t, Done r w') →
  (allocates c = false → writes c = false → w_heap w' = w_heap w)
  ∧ (writes c = false → w_heap w ⊆ w_heap w')
  ∧ dom (w_heap w) ⊆ dom (w_heap w').
Proof.
  intros Hlib Hrun.
  destruct c as [| | | | | | | | | |a| | | | | |]; try destruct a;
    unfold_shims; exec_in Hrun; simplify_eq; cbn; rewrite ?Hlib;
    repeat match goal with
           | H : g_new0 _ _ _ = Some _ |- _ => apply g_new0_extends in H
           | H : assign _ _ _ _ = Some _ |- _ => apply assign_dom in H
           end;
    repeat split; intros; try done;
    try (by apply subseteq_dom); by match goal with H : dom _ = _ |- _ => rewrite H end.
Qed.

Lemma sample_library_preserves_heap : heap_preserving sample_library.
Proof.
  intros f args h l. unfold sample_library.
  repeat case_match; reflexivity.
Qed.

Lemma X8_heap_frame_witness :
  heap_preserving sample_library
  ∧ run sample_library (body I_g_closure_new) (world_of two_arrays)
    = ([ECall g_closure_new_simple [Vsizeof_GClosure; Vnull] (Vstr "handle");
        ECall g_closure_set_marshal [Vstr "handle"; Vfunptr goMarshal] Vvoid],
       Done (Vstr "handle") (world_of two_arrays))
  ∧ (allocates I_g_closure_new = false → writes I_g_closure_new = false →
     two_arrays = two_arrays).
Proof.
  split; [exact sample_library_preserves_heap|].
  split; [reflexivity|].
  exact (proj1 (X8_heap_frame unit sample_library I_g_closure_new
    (world_of two_arrays) (world_of two_arrays) _ _
    sample_library_preserves_heap eq_refl)).
Defined.

(** ** What can go wrong *)



(** ** Reading an error *)

(** X10: [error_get_message] completes exactly when [error] points to a
    [GError]; it then returns the message of that error and leaves the
    whole state as it was. *)
Theorem X10_error_get_message L (lib : library L) (w w' : world L)
    (error r : cval) :
  (run lib (error_get_message error) w).2 = Done r w'
  ↔ ∃ e, deref (w_heap w) error 0 = Some (CGError e)
         ∧ r = message e ∧ w' = w.
Proof.
  unfold_shims. cbn.
  destruct (deref (w_heap w) error 0) as [[v|g|e]|]; cbn; split;
    try (by intros [=]); try (by intros (? & [=] & _)).
  - intros [= <- <-]. by exists e.
  - by intros (? & [= <-] & -> & ->).
Qed.

Lemma X10_error_get_message_witness :
  (∃ e, deref one_error (Vptr 1 0) 0 = Some (CGError e)
        ∧ Vstr "No such file" = message e
        ∧ world_of one_error = world_of one_error)
  ∧ (run sample_library (error_get_message (Vptr 1 0)) (world_of one_error)).2
    = Done (Vstr "No such file") (world_of one_error).
Proof.
  assert (He : ∃ e, deref one_error (Vptr 1 0) 0 = Some (CGError e)
                    ∧ Vstr "No such file" = message e
                    ∧ world_of one_error = world_of one_error)
    by (eexists; repeat split; reflexivity).
  split; [exact He|].
  exact (proj2 (X10_error_get_message unit sample_library (world_of one_error)
                  (world_of one_error) (Vptr 1 0) (Vstr "No such file")) He).
Defined.

(** ** Variant-type accessors *)

(** X11: no two accessors return the same descriptor: when two of them
    return equal pointers they are the same accessor. *)
Theorem X11_accessors_distinct L (lib : library L) (w : world L)
    (a1 a2 : accessor) :
  (run lib (accessor_body a1) w).2 = (run lib (accessor_body a2) w).2 →
  a1 = a2.
Proof. destruct a1, a2; cbn; intros [=]; reflexivity. Qed.

Lemma X11_accessors_distinct_witness :
  (run sample_library (accessor_body acc_dictionary) (world_of ∅)).2
  = (run sample_library _g_variant_type_dictionary (world_of ∅)).2
  ∧ acc_dictionary = acc_dictionary.
Proof.
  split; [reflexivity|].
  exact (X11_accessors_distinct unit sample_library (world_of ∅)
           acc_dictionary acc_dictionary eq_refl).
Defined.

(** ** Copies are independent of their source *)

(** X12: [val_list_insert] copies: when the value at [val] has been
    inserted at [valv[i]] and the value at [val], which is not that
    element, is overwritten afterwards, [valv[i]] still holds the value
    that was inserted. *)
Theorem X12_copy_outlives_source L (lib : library L) (w w' : world L)
    (valv : cval) (i : Z) (val other : cval) (g : GValue) :
  deref (w_heap w) val 0 = Some (CGValue g) →
  address val 0 ≠ address valv i →
  (run lib (insert_then_overwrite_source valv i val other) w).2
  = Done tt w' →
  deref (w_heap w') valv i = Some (CGValue g)
  ∧ ∃ g', deref (w_heap w') val 0 = Some (CGValue g').
Proof.
  intros Hval Hne. unfold insert_then_overwrite_source. unfold_shims. cbn.
  rewrite Hval. cbn.
  destruct (assign (w_heap w) valv i (CGValue g)) as [h1|] eqn:H1;
    cbn; [|done].
  destruct (deref h1 other 0) as [[?|g'|?]|]; cbn; try done.
  destruct (assign h1 val 0 (CGValue g')) as [h2|] eqn:H2; cbn; [|done].
  intros [= <-]. cbn. split.
  - rewrite (assign_deref_other _ _ _ _ _ valv i H2) by done.
    by eapply assign_deref_same.
  - exists g'. by eapply assign_deref_same.
Qed.

Lemma X12_copy_outlives_source_witness :
  deref two_arrays (Vptr 2 0) 0
  = Some (CGValue {| g_type := 24; data := (5, 0) |})
  ∧ address (Vptr 2 0) 0 ≠ address (Vptr 1 0) 1
  ∧ (run sample_library
       (insert_then_overwrite_source (Vptr 1 0) 1 (Vptr 2 0) (Vptr 1 0))
       (world_of two_arrays)).2
    = Done tt (world_of source_overwritten)
  ∧ deref source_overwritten (Vptr 1 0) 1
    = Some (CGValue {| g_type := 24; data := (5, 0) |}).
Proof.
  assert (Hrun : (run sample_library
       (insert_then_overwrite_source (Vptr 1 0) 1 (Vptr 2 0) (Vptr 1 0))
       (world_of two_arrays)).2
    = Done tt (world_of source_overwritten)) by (vm_compute; reflexivity).
  split; [reflexivity|]. split; [discriminate|]. split; [exact Hrun|].
  exact (proj1 (X12_copy_outlives_source unit sample_library
    (world_of two_arrays) (world_of source_overwritten)
    (Vptr 1 0) 1 (Vptr 2 0) (Vptr 1 0) _ eq_refl ltac:(discriminate) Hrun)).
Defined.
